(** * ChatPage: the streaming-session state machine of the chat client

    A shallow embedding of the script block of
    [frontend/src/pages/ChatPage.vue], of the requests built by
    [frontend/src/api/agent.ts] and of [frontend/src/utils/dom.ts].

    Conventions.
    - A JavaScript string is its sequence of UTF-16 code units.
    - The reactive [state] object is a record with the source's field names.
    - Tool objects are shared between the transcript, [lastTool] and
      [lastNoMessageTool], and [Object.assign] mutates them in place: they
      live in an object store and are referred to by address.
    - Calls to collaborators (tool panel, toast, console, network) are
      appended to a log, in program order.
    - [Date.now()] and the value an [await] settles to are arguments of the
      function that reads them.
    - The template and the watcher that scrolls the view on every change of
      the transcript are left out; they write no state. *)

From Stdlib Require Import ZArith NArith String Ascii Lia.
From stdpp Require Import base tactics option numbers relations list.

Local Open Scope Z_scope.

(** ** JavaScript strings *)

Abbreviation jsstring := (list N).

(** The code units of an ASCII literal. *)
Definition js (s : string) : jsstring :=
  map N_of_ascii (list_ascii_of_string s).

(** WhiteSpace and LineTerminator code points, the characters
    [String.prototype.trim] strips. *)
Definition isWhiteSpace (c : N) : bool :=
  ((c =? 9) || (c =? 10) || (c =? 11) || (c =? 12) || (c =? 13)
   || (c =? 32) || (c =? 160) || (c =? 5760)
   || ((8192 <=? c) && (c <=? 8202))
   || (c =? 8232) || (c =? 8233) || (c =? 8239) || (c =? 8287)
   || (c =? 12288) || (c =? 65279))%N.

Fixpoint trimStart (s : jsstring) : jsstring :=
  match s with
  | [] => []
  | c :: s' => if isWhiteSpace c then trimStart s' else s
  end.

Definition trimEnd (s : jsstring) : jsstring := rev (trimStart (rev s)).

Definition trim (s : jsstring) : jsstring := trimEnd (trimStart s).

(** Truthiness of a string: the empty string is the only falsy one. *)
Definition truthy (s : jsstring) : bool :=
  match s with [] => false | _ :: _ => true end.

(** ** Values typed [any] *)

#[warnings="-register-all"]
Inductive any : Type :=
| JNull
| JBool (b : bool)
| JNum (z : Z)
| JStr (s : jsstring)
| JArr (items : list any)
| JObj (fields : list (jsstring * any)).

(** ** types/message.ts and the event payloads *)

Inductive Role := user | assistant.

Inductive MessageType := type_user | type_assistant | type_tool | type_step | type_attachments.

Definition type_of_role (r : Role) : MessageType :=
  match r with user => type_user | assistant => type_assistant end.

Inductive ToolStatus := calling | called.

Inductive StepStatus := pending | running | completed | failed.

Record FileInfo := { file_id : jsstring }.

(** Addresses of tool objects in the object store. *)
Abbreviation addr := nat.

Module MessageEventData.
Record t := mk {
  role : Role;
  content : jsstring;
  timestamp : Z;
  attachments : option (list FileInfo);
  event_id : jsstring
}.
End MessageEventData.

(** A tool event payload; [{...toolData}] has the same keys, so the tool
    objects of the transcript have this shape too. [content] is an optional
    key: [None] is an object without it. *)
Module ToolContent.
Record t := mk {
  tool_call_id : jsstring;
  name : jsstring;
  function : jsstring;
  args : any;
  content : option any;
  status : ToolStatus;
  timestamp : Z;
  event_id : jsstring
}.
End ToolContent.

Abbreviation ToolEventData := ToolContent.t.

Module StepEventData.
Record t := mk {
  id : jsstring;
  description : jsstring;
  status : StepStatus;
  event_id : jsstring
}.
End StepEventData.

(** [{...stepData, tools: []}] *)
Module StepContent.
Record t := mk {
  id : jsstring;
  description : jsstring;
  status : StepStatus;
  event_id : jsstring;
  tools : list addr
}.
Definition of_event (d : StepEventData.t) : t :=
  mk (StepEventData.id d) (StepEventData.description d)
     (StepEventData.status d) (StepEventData.event_id d) [].
Definition set_status (s : StepStatus) (c : t) : t :=
  mk (id c) (description c) s (event_id c) (tools c).
Definition push_tool (a : addr) (c : t) : t :=
  mk (id c) (description c) (status c) (event_id c) (tools c ++ [a]).
End StepContent.

Module ErrorEventData.
Record t := mk { error : jsstring; timestamp : Z; event_id : jsstring }.
End ErrorEventData.

Module TitleEventData.
Record t := mk { title : jsstring; event_id : jsstring }.
End TitleEventData.

Module PlanEventData.
Record t := mk { steps : list any; event_id : jsstring }.
End PlanEventData.

(** The content object of a 'user' / 'assistant' entry: either the spread
    of a message payload or the two-key literal [{content, timestamp}]. *)
Inductive MessageContent :=
| SpreadMessage (messageData : MessageEventData.t)
| TextContent (content : jsstring) (timestamp : Z).

Definition content_of (c : MessageContent) : jsstring :=
  match c with
  | SpreadMessage d => MessageEventData.content d
  | TextContent s _ => s
  end.

Definition timestamp_of (c : MessageContent) : Z :=
  match c with
  | SpreadMessage d => MessageEventData.timestamp d
  | TextContent _ ts => ts
  end.

(** The content object of an 'attachments' entry: the spread of a message
    payload or the literal [{role: 'user', attachments: files}]. *)
Inductive AttachmentsContent :=
| SpreadAttachments (messageData : MessageEventData.t)
| UserFiles (files : list FileInfo).

(** A transcript entry [{type, content}]; the tag determines the shape of
    the content. A tool entry holds a reference to its tool object. *)
Inductive Message :=
| MessageEntry (role : Role) (content : MessageContent)
| AttachmentsEntry (content : AttachmentsContent)
| ToolEntry (content : addr)
| StepEntry (content : StepContent.t).

Definition type (m : Message) : MessageType :=
  match m with
  | MessageEntry r _ => type_of_role r
  | AttachmentsEntry _ => type_attachments
  | ToolEntry _ => type_tool
  | StepEntry _ => type_step
  end.

(** [AgentSSEEvent]: the [event] discriminator with its [data]. *)
Module Event.
Inductive t :=
| message (data : MessageEventData.t)
| tool (data : ToolEventData)
| step (data : StepEventData.t)
| done (event_id : jsstring)
| wait (event_id : jsstring)
| error (data : ErrorEventData.t)
| title (data : TitleEventData.t)
| plan (data : PlanEventData.t).

(** [event.data.event_id] *)
Definition event_id (e : t) : jsstring :=
  match e with
  | message d => MessageEventData.event_id d
  | tool d => ToolContent.event_id d
  | step d => StepEventData.event_id d
  | done i => i
  | wait i => i
  | error d => ErrorEventData.event_id d
  | title d => TitleEventData.event_id d
  | plan d => PlanEventData.event_id d
  end.
End Event.

(** ** api/agent.ts *)

Module agentApi.
(** The body of the POST issued by [chatWithSession]. *)
Record ChatBody := {
  message : jsstring;
  timestamp : Z;
  event_id : option jsstring;
  attachments : list jsstring
}.

Record SSERequest := { path : jsstring; body : ChatBody }.

(** [Math.floor(Date.now() / 1000)] *)
Definition unix_seconds (now : Z) : Z := now / 1000.

Definition chatWithSession (now : Z) (sessionId message : jsstring)
    (eventId : option jsstring) (attachments : list jsstring) : SSERequest :=
  {| path := js "/sessions/" ++ sessionId ++ js "/chat";
     body := {| message := message;
                timestamp := unix_seconds now;
                event_id := eventId;
                attachments := attachments |} |}.
End agentApi.

(** Modelled from the spec: the [SessionStatus] enum of [types/response],
    which is not among the sources; the spec lists PENDING, RUNNING,
    COMPLETED and FAILED. *)
Inductive SessionStatus := PENDING | RUNNING | COMPLETED | FAILED.

Record GetSessionResponse := {
  session_status : SessionStatus;
  session_events : list Event.t
}.

(** ** The reactive state *)

(** A cancel function returned by [chatWithSession], named by the
    connection it cancels. *)
Abbreviation handle := nat.

Record State := mkState {
  inputMessage : jsstring;
  isLoading : bool;
  sessionId : option jsstring;
  messages : list Message;
  toolPanelSize : Z;
  realTime : bool;
  follow : bool;
  title : jsstring;
  plan : option PlanEventData.t;
  lastNoMessageTool : option addr;
  lastMessageTool : option addr;
  lastTool : option addr;
  lastEventId : option jsstring;
  cancelCurrentChat : option handle;
  attachments : list FileInfo
}.

(** Calls that leave the component. *)
Inductive Effect :=
| ShowToolPanel (tool : addr) (live : bool)
| HideToolPanel
| HideFilePanel
| ShowErrorToast (text : jsstring)
| ConsoleLog (text : jsstring)
| ConsoleError (text : jsstring) (error : any)
| CancelChat (h : handle)
| CreateSSEConnection (request : agentApi.SSERequest)
| GetSession (sessionId : jsstring)
| ClearUnreadMessageCount (sessionId : jsstring)
| StopSession (sessionId : jsstring)
| ScrollToBottom.

(** The component instance: the reactive state, the store of tool objects,
    whether the [toolPanel] template ref is bound, and the log of calls. *)
Record Page := mkPage {
  state : State;
  store : list ToolContent.t;
  toolPanel : bool;
  log : list Effect
}.

Definition with_state (f : State -> State) (p : Page) : Page :=
  mkPage (f (state p)) (store p) (toolPanel p) (log p).

Definition emit (e : Effect) (p : Page) : Page :=
  mkPage (state p) (store p) (toolPanel p) (log p ++ [e]).

Definition set_inputMessage (v : jsstring) : Page -> Page :=
  with_state (fun s =>
    mkState v (isLoading s) (sessionId s) (messages s) (toolPanelSize s)
      (realTime s) (follow s) (title s) (plan s) (lastNoMessageTool s)
      (lastMessageTool s) (lastTool s) (lastEventId s) (cancelCurrentChat s)
      (attachments s)).

Definition set_isLoading (v : bool) : Page -> Page :=
  with_state (fun s =>
    mkState (inputMessage s) v (sessionId s) (messages s) (toolPanelSize s)
      (realTime s) (follow s) (title s) (plan s) (lastNoMessageTool s)
      (lastMessageTool s) (lastTool s) (lastEventId s) (cancelCurrentChat s)
      (attachments s)).

Definition set_sessionId (v : option jsstring) : Page -> Page :=
  with_state (fun s =>
    mkState (inputMessage s) (isLoading s) v (messages s) (toolPanelSize s)
      (realTime s) (follow s) (title s) (plan s) (lastNoMessageTool s)
      (lastMessageTool s) (lastTool s) (lastEventId s) (cancelCurrentChat s)
      (attachments s)).

Definition set_messages (v : list Message) : Page -> Page :=
  with_state (fun s =>
    mkState (inputMessage s) (isLoading s) (sessionId s) v (toolPanelSize s)
      (realTime s) (follow s) (title s) (plan s) (lastNoMessageTool s)
      (lastMessageTool s) (lastTool s) (lastEventId s) (cancelCurrentChat s)
      (attachments s)).

Definition set_realTime (v : bool) : Page -> Page :=
  with_state (fun s =>
    mkState (inputMessage s) (isLoading s) (sessionId s) (messages s)
      (toolPanelSize s) v (follow s) (title s) (plan s) (lastNoMessageTool s)
      (lastMessageTool s) (lastTool s) (lastEventId s) (cancelCurrentChat s)
      (attachments s)).

Definition set_follow (v : bool) : Page -> Page :=
  with_state (fun s =>
    mkState (inputMessage s) (isLoading s) (sessionId s) (messages s)
      (toolPanelSize s) (realTime s) v (title s) (plan s) (lastNoMessageTool s)
      (lastMessageTool s) (lastTool s) (lastEventId s) (cancelCurrentChat s)
      (attachments s)).

Definition set_title (v : jsstring) : Page -> Page :=
  with_state (fun s =>
    mkState (inputMessage s) (isLoading s) (sessionId s) (messages s)
      (toolPanelSize s) (realTime s) (follow s) v (plan s) (lastNoMessageTool s)
      (lastMessageTool s) (lastTool s) (lastEventId s) (cancelCurrentChat s)
      (attachments s)).

Definition set_plan (v : option PlanEventData.t) : Page -> Page :=
  with_state (fun s =>
    mkState (inputMessage s) (isLoading s) (sessionId s) (messages s)
      (toolPanelSize s) (realTime s) (follow s) (title s) v
      (lastNoMessageTool s) (lastMessageTool s) (lastTool s) (lastEventId s)
      (cancelCurrentChat s) (attachments s)).

Definition set_lastNoMessageTool (v : option addr) : Page -> Page :=
  with_state (fun s =>
    mkState (inputMessage s) (isLoading s) (sessionId s) (messages s)
      (toolPanelSize s) (realTime s) (follow s) (title s) (plan s) v
      (lastMessageTool s) (lastTool s) (lastEventId s) (cancelCurrentChat s)
      (attachments s)).

Definition set_lastTool (v : option addr) : Page -> Page :=
  with_state (fun s =>
    mkState (inputMessage s) (isLoading s) (sessionId s) (messages s)
      (toolPanelSize s) (realTime s) (follow s) (title s) (plan s)
      (lastNoMessageTool s) (lastMessageTool s) v (lastEventId s)
      (cancelCurrentChat s) (attachments s)).

Definition set_lastEventId (v : option jsstring) : Page -> Page :=
  with_state (fun s =>
    mkState (inputMessage s) (isLoading s) (sessionId s) (messages s)
      (toolPanelSize s) (realTime s) (follow s) (title s) (plan s)
      (lastNoMessageTool s) (lastMessageTool s) (lastTool s) v
      (cancelCurrentChat s) (attachments s)).

Definition set_cancelCurrentChat (v : option handle) : Page -> Page :=
  with_state (fun s =>
    mkState (inputMessage s) (isLoading s) (sessionId s) (messages s)
      (toolPanelSize s) (realTime s) (follow s) (title s) (plan s)
      (lastNoMessageTool s) (lastMessageTool s) (lastTool s) (lastEventId s) v
      (attachments s)).

(** [messages.value.push(m)] *)
Definition push (m : Message) (p : Page) : Page :=
  set_messages (messages (state p) ++ [m]) p.

(** Creating a tool object; its address is the old size of the store. *)
Definition alloc (o : ToolContent.t) (p : Page) : Page :=
  mkPage (state p) (store p ++ [o]) (toolPanel p) (log p).

Definition write (a : addr) (o : ToolContent.t) (p : Page) : Page :=
  mkPage (state p) (<[a := o]> (store p)) (toolPanel p) (log p).

(** [Object.assign(target, source)]: every own key of [source] overwrites
    the key of [target]; a key [source] lacks keeps the target's value. *)
Definition Object_assign (target source : ToolContent.t) : ToolContent.t :=
  ToolContent.mk
    (ToolContent.tool_call_id source)
    (ToolContent.name source)
    (ToolContent.function source)
    (ToolContent.args source)
    (match ToolContent.content source with
     | Some c => Some c
     | None => ToolContent.content target
     end)
    (ToolContent.status source)
    (ToolContent.timestamp source)
    (ToolContent.event_id source).

(** ** The component *)

Section ChatPage.

(** The translation function [t] of vue-i18n. *)
Context (t : jsstring -> jsstring).

Definition createInitialState : State :=
  {| inputMessage := [];
     isLoading := false;
     sessionId := None;
     messages := [];
     toolPanelSize := 0;
     realTime := true;
     follow := true;
     title := t (js "New Chat");
     plan := None;
     lastNoMessageTool := None;
     lastMessageTool := None;
     lastTool := None;
     lastEventId := None;
     cancelCurrentChat := None;
     attachments := [] |}.

(** The cancel function is called when one is stored. *)
Definition call_cancelCurrentChat (p : Page) : Page :=
  match cancelCurrentChat (state p) with
  | Some h => emit (CancelChat h) p
  | None => p
  end.

Definition resetState (p : Page) : Page :=
  let p := call_cancelCurrentChat p in
  with_state (fun _ => createInitialState) p.

End ChatPage.

(** The last entry of type 'step', with its position: the position stands
    for the reference to the content object that [getLastStep] returns. *)
Fixpoint last_step_from (i : nat) (ms : list Message) : option (nat * StepContent.t) :=
  match ms with
  | [] => None
  | m :: ms' =>
      match last_step_from (S i) ms' with
      | Some r => Some r
      | None =>
          match m with
          | StepEntry c => Some (i, c)
          | _ => None
          end
      end
  end.

Definition getLastStep (p : Page) : option (nat * StepContent.t) :=
  last_step_from 0 (messages (state p)).

(** [messageData.attachments?.length > 0] *)
Definition has_attachments (d : MessageEventData.t) : bool :=
  match MessageEventData.attachments d with
  | Some (_ :: _) => true
  | _ => false
  end.

Definition handleMessageEvent (messageData : MessageEventData.t) (p : Page) : Page :=
  let p := push (MessageEntry (MessageEventData.role messageData)
                              (SpreadMessage messageData)) p in
  if has_attachments messageData
  then push (AttachmentsEntry (SpreadAttachments messageData)) p
  else p.

(** [lastTool.value && lastTool.value.tool_call_id === id]: the tracked
    tool object, when it carries that id. *)
Definition tracked (id : jsstring) (p : Page) : option (addr * ToolContent.t) :=
  match lastTool (state p) with
  | Some a =>
      match store p !! a with
      | Some o =>
          if decide (ToolContent.tool_call_id o = id) then Some (a, o) else None
      | None => None
      end
  | None => None
  end.

Definition handleToolEvent (toolData : ToolEventData) (p : Page) : Page :=
  let lastStep := getLastStep p in
  (* What [lastTool.value] refers to does not depend on the object created
     next, so it is read from the store as it is on entry. *)
  let hit := tracked (ToolContent.tool_call_id toolData) p in
  (* let toolContent = {...toolData} *)
  let toolContent : addr := length (store p) in
  let p := alloc toolData p in
  let p :=
    match hit with
    | Some (a, o) => write a (Object_assign o toolData) p
    | None =>
        let p :=
          match lastStep with
          | Some (i, c) =>
              match StepContent.status c with
              | running =>
                  set_messages
                    (<[i := StepEntry (StepContent.push_tool toolContent c)]>
                       (messages (state p))) p
              | _ => push (ToolEntry toolContent) p
              end
          | None => push (ToolEntry toolContent) p
          end in
        set_lastTool (Some toolContent) p
    end in
  if decide (ToolContent.name toolData = js "message") then p
  else
    let p := set_lastNoMessageTool (Some toolContent) p in
    if realTime (state p) && toolPanel p
    then emit (ShowToolPanel toolContent true) p
    else p.

Definition handleStepEvent (stepData : StepEventData.t) (p : Page) : Page :=
  let lastStep := getLastStep p in
  match StepEventData.status stepData with
  | running => push (StepEntry (StepContent.of_event stepData)) p
  | completed =>
      match lastStep with
      | Some (i, c) =>
          set_messages
            (<[i := StepEntry (StepContent.set_status completed c)]>
               (messages (state p))) p
      | None => p
      end
  | failed => set_isLoading false p
  | pending => p
  end.

Definition handleErrorEvent (errorData : ErrorEventData.t) (p : Page) : Page :=
  let p := set_isLoading false p in
  push (MessageEntry assistant
          (TextContent (ErrorEventData.error errorData)
                       (ErrorEventData.timestamp errorData))) p.

Definition handleTitleEvent (titleData : TitleEventData.t) (p : Page) : Page :=
  set_title (TitleEventData.title titleData) p.

Definition handlePlanEvent (planData : PlanEventData.t) (p : Page) : Page :=
  set_plan (Some planData) p.

(** The main event handler. *)
Definition handleEvent (event : Event.t) (p : Page) : Page :=
  let p :=
    match event with
    | Event.message d => handleMessageEvent d p
    | Event.tool d => handleToolEvent d p
    | Event.step d => handleStepEvent d p
    | Event.done _ => p
    | Event.wait _ => p
    | Event.error d => handleErrorEvent d p
    | Event.title d => handleTitleEvent d p
    | Event.plan d => handlePlanEvent d p
    end in
  set_lastEventId (Some (Event.event_id event)) p.

(** Folding a list of events, in order. *)
Definition handleEvents (events : list Event.t) (p : Page) : Page :=
  foldl (fun p event => handleEvent event p) p events.

(** ** The controller *)

(** [sessionId.value] when it is truthy: set, and not the empty string. *)
Definition current_session (p : Page) : option jsstring :=
  match sessionId (state p) with
  | Some sid => if truthy sid then Some sid else None
  | None => None
  end.

(** What an awaited promise settles to. *)
Inductive Awaited (A : Type) :=
| Resolved (value : A)
| Rejected (error : any).
Arguments Resolved {A} value.
Arguments Rejected {A} error.

(** [chat], up to the [try]: cancel the stored connection, append the
    optimistic entries, set the flags. [now] is the reading of [Date.now()]. *)
Definition chat_prepare (now : Z) (message : jsstring) (files : list FileInfo)
    (p : Page) : Page :=
  let p :=
    match cancelCurrentChat (state p) with
    | Some h => set_cancelCurrentChat None (emit (CancelChat h) p)
    | None => p
    end in
  let p :=
    if truthy (trim message)
    then push (MessageEntry user (TextContent message (agentApi.unix_seconds now))) p
    else p in
  let p :=
    match files with
    | _ :: _ => push (AttachmentsEntry (UserFiles files)) p
    | [] => p
    end in
  let p := set_follow true p in
  let p := set_inputMessage [] p in
  set_isLoading true p.

(** The call [agentApi.chatWithSession(...)], which opens the channel;
    [now] is the reading of [Date.now()] inside [chatWithSession]. *)
Definition chat_open (now : Z) (sid message : jsstring) (files : list FileInfo)
    (p : Page) : Page :=
  emit (CreateSSEConnection
          (agentApi.chatWithSession now sid message (lastEventId (state p))
             (map file_id files))) p.

(** After the [await]: store the cancel function, or the [catch] block. *)
Definition chat_settle (r : Awaited handle) (p : Page) : Page :=
  match r with
  | Resolved cancel => set_cancelCurrentChat (Some cancel) p
  | Rejected error =>
      let p := emit (ConsoleError (js "Chat error:") error) p in
      let p := set_isLoading false p in
      set_cancelCurrentChat None p
  end.

(** The state at the moment the channel is opened. *)
Definition chat_send (now now_api : Z) (message : jsstring) (files : list FileInfo)
    (p : Page) : Page :=
  match current_session p with
  | None => p
  | Some sid => chat_open now_api sid message files (chat_prepare now message files p)
  end.

(** [chat] run to completion: [r] is what the awaited call settles to, and
    no callback is delivered between the call and its settlement. The two
    halves above are the steps of any other interleaving. *)
Definition chat (now now_api : Z) (r : Awaited handle) (message : jsstring)
    (files : list FileInfo) (p : Page) : Page :=
  match current_session p with
  | None => p
  | Some _ => chat_settle r (chat_send now now_api message files p)
  end.

(** The callbacks handed to [chatWithSession]. *)
Definition onOpen (p : Page) : Page :=
  set_isLoading true (emit (ConsoleLog (js "Chat opened")) p).

Definition onMessage (event : Event.t) (p : Page) : Page := handleEvent event p.

Definition clear_cancelCurrentChat (p : Page) : Page :=
  match cancelCurrentChat (state p) with
  | Some _ => set_cancelCurrentChat None p
  | None => p
  end.

Definition onClose (p : Page) : Page :=
  let p := emit (ConsoleLog (js "Chat closed")) p in
  let p := set_isLoading false p in
  clear_cancelCurrentChat p.

Definition onError (error : any) (p : Page) : Page :=
  let p := emit (ConsoleError (js "Chat error:") error) p in
  let p := set_isLoading false p in
  clear_cancelCurrentChat p.

Definition handleSubmit (now now_api : Z) (r : Awaited handle) (p : Page) : Page :=
  chat now now_api r (inputMessage (state p)) (attachments (state p)) p.

(** The replay loop of [restoreSession], between the two writes of
    [realTime]. *)
Definition replay (events : list Event.t) (p : Page) : Page :=
  let p := set_realTime false p in
  let p := handleEvents events p in
  set_realTime true p.

Definition is_active (s : SessionStatus) : bool :=
  match s with RUNNING | PENDING => true | _ => false end.

Section Restore.

Context (t : jsstring -> jsstring).

(** [fetched] is what [agentApi.getSession] settles to; a rejection leaves
    the function through the exception. The loop over the events has no
    [await], so nothing else runs during the replay. *)
Definition restoreSession (now now_api : Z) (fetched : Awaited GetSessionResponse)
    (r : Awaited handle) (p : Page) : Page :=
  match current_session p with
  | None => emit (ShowErrorToast (t (js "Session not found"))) p
  | Some sid =>
      let p := emit (GetSession sid) p in
      match fetched with
      | Rejected _ => p
      | Resolved session =>
          let p := replay (session_events session) p in
          let p :=
            if is_active (session_status session)
            then chat now now_api r [] [] p
            else p in
          emit (ClearUnreadMessageCount sid) p
      end
  end.

(** [to] is [to.params.sessionId], when the route has one. *)
Definition onBeforeRouteUpdate (now now_api : Z) (to : option jsstring)
    (fetched : Awaited GetSessionResponse) (r : Awaited handle) (p : Page) : Page :=
  let p := if toolPanel p then emit HideToolPanel p else p in
  let p := emit HideFilePanel p in
  let p := resetState t p in
  match to with
  | Some sid =>
      if truthy sid then
        let p := set_messages [] p in
        let p := set_sessionId (Some sid) p in
        restoreSession now now_api fetched r p
      else p
  | None => p
  end.

End Restore.

Definition onUnmounted (p : Page) : Page :=
  match cancelCurrentChat (state p) with
  | Some h => set_cancelCurrentChat None (emit (CancelChat h) p)
  | None => p
  end.

(** [lastNoMessageTool.value?.tool_call_id] *)
Definition lastNoMessageTool_id (p : Page) : option jsstring :=
  match lastNoMessageTool (state p) with
  | Some a => ToolContent.tool_call_id <$> store p !! a
  | None => None
  end.

Definition isLastNoMessageTool (tool : ToolContent.t) (p : Page) : bool :=
  bool_decide (Some (ToolContent.tool_call_id tool) = lastNoMessageTool_id p).

(** [now] is the reading of [Date.now()], in milliseconds. *)
Definition isLiveTool (now : Z) (tool : ToolContent.t) (p : Page) : bool :=
  match ToolContent.status tool with
  | calling => true
  | called =>
      if negb (isLastNoMessageTool tool p) then false
      else if now - 5 * 60 * 1000 <? ToolContent.timestamp tool then true
      else false
  end.

(** A click on the tool object at address [tool]. *)
Definition handleToolClick (now : Z) (tool : addr) (p : Page) : Page :=
  let p := set_realTime false p in
  match current_session p, store p !! tool with
  | Some _, Some o =>
      if toolPanel p then emit (ShowToolPanel tool (isLiveTool now o p)) p else p
  | _, _ => p
  end.

Definition jumpToRealTime (now : Z) (p : Page) : Page :=
  let p := set_realTime true p in
  match lastNoMessageTool (state p) with
  | Some a =>
      match store p !! a with
      | Some o =>
          if toolPanel p then emit (ShowToolPanel a (isLiveTool now o p)) p else p
      | None => p
      end
  | None => p
  end.

Definition handleStop (p : Page) : Page :=
  match current_session p with
  | Some sid => emit (StopSession sid) p
  | None => p
  end.

(** [simpleBarRef] is bound whenever the button can be clicked. *)
Definition handleFollow (p : Page) : Page :=
  emit ScrollToBottom (set_follow true p).

(** [atBottom] is [simpleBarRef.value?.isScrolledToBottom()]. *)
Definition handleScroll (atBottom : option bool) (p : Page) : Page :=
  set_follow (default false atBottom) p.

(** The component after [setup]: the initial state, no tool object yet,
    the tool panel rendered, nothing called. *)
Definition mount (t : jsstring -> jsstring) : Page :=
  mkPage (createInitialState t) [] true [].

(** [onMounted]; [route] is [routeParams.sessionId], [message] and [files]
    are [history.state?.message] and [history.state?.files]. *)
Definition onMounted (t : jsstring -> jsstring) (now now_api : Z)
    (route : option jsstring) (message : option jsstring) (files : list FileInfo)
    (fetched : Awaited GetSessionResponse) (r : Awaited handle) (p : Page) : Page :=
  let p := emit HideFilePanel p in
  match route with
  | Some sid =>
      if truthy sid then
        let p := set_sessionId (Some sid) p in
        match message with
        | Some m =>
            if truthy m then chat now now_api r m files p
            else restoreSession t now now_api fetched r p
        | None => restoreSession t now now_api fetched r p
        end
      else p
  | None => p
  end.

(** * Vocabulary of the properties *)

Arguments js : simpl never.

(** The tool objects of the transcript, in display order: a top-level tool
    entry contributes its object, a step entry its nested tools. *)
Definition entry_tools (m : Message) : list addr :=
  match m with
  | ToolEntry a => [a]
  | StepEntry c => StepContent.tools c
  | _ => []
  end.

Definition tool_addrs (ms : list Message) : list addr :=
  concat (map entry_tools ms).

Definition tool_entries (p : Page) : list ToolContent.t :=
  omap (fun a => store p !! a) (tool_addrs (messages (state p))).

(** The transcript's tool entries that carry a given [tool_call_id]. *)
Definition entries_for (id : jsstring) (p : Page) : list ToolContent.t :=
  filter (fun o => ToolContent.tool_call_id o = id) (tool_entries p).

(** Top-level tool entries only. *)
Definition top_level_tools (p : Page) : list addr :=
  concat (map (fun m => match m with ToolEntry a => [a] | _ => [] end)
              (messages (state p))).

(** The calls a stored cancel function receives when it is invoked. *)
Definition cancel_calls (p : Page) : list Effect :=
  match cancelCurrentChat (state p) with
  | Some h => [CancelChat h]
  | None => []
  end.

(** Everything but the resume cursor is the same in [p] and [p']. *)
Definition same_but_cursor (p p' : Page) : Prop :=
  store p' = store p /\ log p' = log p /\ toolPanel p' = toolPanel p /\
  inputMessage (state p') = inputMessage (state p) /\
  isLoading (state p') = isLoading (state p) /\
  sessionId (state p') = sessionId (state p) /\
  messages (state p') = messages (state p) /\
  toolPanelSize (state p') = toolPanelSize (state p) /\
  realTime (state p') = realTime (state p) /\
  follow (state p') = follow (state p) /\
  title (state p') = title (state p) /\
  plan (state p') = plan (state p) /\
  lastNoMessageTool (state p') = lastNoMessageTool (state p) /\
  lastMessageTool (state p') = lastMessageTool (state p) /\
  lastTool (state p') = lastTool (state p) /\
  cancelCurrentChat (state p') = cancelCurrentChat (state p) /\
  attachments (state p') = attachments (state p).

(** What the channel can deliver to the controller. *)
Inductive Callback :=
| CbOpen
| CbMessage (event : Event.t)
| CbClose
| CbError (error : any).

Definition deliver (cb : Callback) (p : Page) : Page :=
  match cb with
  | CbOpen => onOpen p
  | CbMessage e => onMessage e p
  | CbClose => onClose p
  | CbError err => onError err p
  end.

(** The deliveries that stop the "Thinking" indicator. *)
Definition stops_loading (cb : Callback) : bool :=
  match cb with
  | CbClose | CbError _ => true
  | CbMessage (Event.error _) => true
  | CbMessage (Event.step d) =>
      match StepEventData.status d with failed => true | _ => false end
  | _ => false
  end.

(** The object a run of events for one tool call merges into: the first
    event's copy, with every later event assigned onto it. *)
Definition merged (d : ToolEventData) (ds : list ToolEventData) : ToolContent.t :=
  foldl Object_assign d ds.

(** The [content] of the latest event of the run that has the key. *)
Fixpoint latest_content (ds : list ToolEventData) : option any :=
  match ds with
  | [] => None
  | d :: ds' =>
      match latest_content ds' with
      | Some c => Some c
      | None => ToolContent.content d
      end
  end.

(** Every tool reference of the transcript points into the store. *)
Definition refs_in_store (p : Page) : Prop :=
  Forall (fun a => (a < length (store p))%nat) (tool_addrs (messages (state p))).

(** The tracked tool, when there is one, is an entry of the transcript. *)
Definition lastTool_listed (p : Page) : Prop :=
  forall a, lastTool (state p) = Some a -> a ∈ tool_addrs (messages (state p)).

(** The shape every page of a running component has: references are
    objects, never dangling addresses. *)
Definition well_formed (p : Page) : Prop :=
  refs_in_store p /\ lastTool_listed p.

(** Everything that can happen to a mounted component: a delivery of the
    channel, a user action, a navigation. Each carries the clock readings
    and settled values the handler consumes. *)
Inductive Action :=
| Deliver (cb : Callback)
| Mounted (now now_api : Z) (route message : option jsstring) (files : list FileInfo)
    (fetched : Awaited GetSessionResponse) (r : Awaited handle)
| Submit (now now_api : Z) (r : Awaited handle)
| Restore (now now_api : Z) (fetched : Awaited GetSessionResponse) (r : Awaited handle)
| RouteUpdate (now now_api : Z) (to : option jsstring)
    (fetched : Awaited GetSessionResponse) (r : Awaited handle)
| Unmounted
| ToolClick (now : Z) (tool : addr)
| JumpToRealTime (now : Z)
| Follow
| Scroll (atBottom : option bool)
| Stop.

Definition perform (t : jsstring -> jsstring) (a : Action) (p : Page) : Page :=
  match a with
  | Deliver cb => deliver cb p
  | Mounted now now_api route message files fetched r =>
      onMounted t now now_api route message files fetched r p
  | Submit now now_api r => handleSubmit now now_api r p
  | Restore now now_api fetched r => restoreSession t now now_api fetched r p
  | RouteUpdate now now_api to fetched r =>
      onBeforeRouteUpdate t now now_api to fetched r p
  | Unmounted => onUnmounted p
  | ToolClick now tool => handleToolClick now tool p
  | JumpToRealTime now => jumpToRealTime now p
  | Follow => handleFollow p
  | Scroll atBottom => handleScroll atBottom p
  | Stop => handleStop p
  end.

(** The pages a component can be in. *)
Inductive reachable (t : jsstring -> jsstring) : Page -> Prop :=
| reachable_mount : reachable t (mount t)
| reachable_perform a p : reachable t p -> reachable t (perform t a p).

(** The step a new tool call is nested under: the last step entry, while
    its status is running. *)
Definition open_step (p : Page) : option (nat * StepContent.t) :=
  match getLastStep p with
  | Some (i, c) =>
      match StepContent.status c with running => Some (i, c) | _ => None end
  | None => None
  end.

(** A timestamp in seconds lies within the five minutes before [now], a
    reading of the clock in milliseconds. *)
Definition within_last_5_minutes (now timestamp : Z) : bool :=
  (agentApi.unix_seconds now - 5 * 60 <? timestamp) &&
  (timestamp <=? agentApi.unix_seconds now).

(** The "live" flag as the inspector's rule words it. *)
Definition live_flag (now : Z) (tool : ToolContent.t) (p : Page) : bool :=
  match ToolContent.status tool with
  | calling => true
  | called =>
      isLastNoMessageTool tool p &&
      within_last_5_minutes now (ToolContent.timestamp tool)
  end.

(** The calls made since the log had length [n]. *)
Definition calls_since (n : nat) (p : Page) : list Effect := drop n (log p).

Definition is_ShowToolPanel (e : Effect) : bool :=
  match e with ShowToolPanel _ _ => true | _ => false end.

Definition is_ShowErrorToast (e : Effect) : bool :=
  match e with ShowErrorToast _ => true | _ => false end.

(** [p] and [q] agree on everything the reducer reads or writes, except
    the real-time flag and the log of calls. *)
Definition agree_modulo_realTime (p q : Page) : Prop :=
  store p = store q /\ toolPanel p = toolPanel q /\
  state (set_realTime true p) = state (set_realTime true q).

(** The calls made once the promise of [chatWithSession] settles. *)
Definition settle_calls (r : Awaited handle) : list Effect :=
  match r with
  | Resolved _ => []
  | Rejected error => [ConsoleError (js "Chat error:") error]
  end.

(** The request of a chat call that carries no message and no files. *)
Definition resume_request (now : Z) (sid : jsstring) (cursor : option jsstring)
    : agentApi.SSERequest :=
  agentApi.chatWithSession now sid [] cursor [].

(** Folding a run of tool events. *)
Definition handleToolEvents (ds : list ToolEventData) (p : Page) : Page :=
  handleEvents (map Event.tool ds) p.

Definition rejected {A : Type} (r : Awaited A) : bool :=
  match r with Resolved _ => false | Rejected _ => true end.

(** A fetched history that contains an event stopping the indicator. *)
Definition replays_stop (fetched : Awaited GetSessionResponse) : bool :=
  match fetched with
  | Resolved session =>
      existsb (fun e => stops_loading (CbMessage e)) (session_events session)
  | Rejected _ => false
  end.

(** The actions that can turn the "Thinking" indicator off: the stopping
    deliveries of the channel, a chat call whose request is rejected (the
    [catch] block), the replay of a stopping event, and the state reset of a
    route change. *)
Definition may_stop_loading (a : Action) : bool :=
  match a with
  | Deliver cb => stops_loading cb
  | Submit _ _ r => rejected r
  | Mounted _ _ _ _ _ fetched r => rejected r || replays_stop fetched
  | Restore _ _ fetched r => rejected r || replays_stop fetched
  | RouteUpdate _ _ _ _ _ => true
  | _ => false
  end.

(** ** Concrete pages and payloads *)

(** The payloads of the scenario: a user message, then an error. *)
Definition hi_message : MessageEventData.t :=
  MessageEventData.mk user (js "hi") 1700000000 None (js "1-0").

Definition boom_error : ErrorEventData.t :=
  ErrorEventData.mk (js "boom") 1700000005 (js "2-0").

(** A page that is waiting for the agent. *)
Definition thinking_page : Page :=
  set_isLoading true (set_sessionId (Some (js "s")) (mount (fun k => k))).

(** A page with an open channel and one folded message. *)
Definition streaming_page : Page :=
  handleEvent (Event.message hi_message)
    (set_cancelCurrentChat (Some 1%nat) thinking_page).

(** Two events for the tool call "t1": the result arrives with the first,
    the second has no [content] key. *)
Definition t1_called_ok : ToolEventData :=
  ToolContent.mk (js "t1") (js "bash") (js "shell_exec") JNull
    (Some (JStr (js "ok"))) called 1700000010 (js "3-0").

Definition t1_called_bare : ToolEventData :=
  ToolContent.mk (js "t1") (js "bash") (js "shell_exec") JNull
    None called 1700000011 (js "4-0").

Definition t1_calling : ToolEventData :=
  ToolContent.mk (js "t1") (js "bash") (js "shell_exec") JNull
    None calling 1700000009 (js "2-1").

Definition tool_A : ToolEventData :=
  ToolContent.mk (js "A") (js "bash") (js "shell_exec") JNull
    None calling 1700000001 (js "a-0").

Definition tool_B : ToolEventData :=
  ToolContent.mk (js "B") (js "message") (js "message_notify_user") JNull
    None calling 1700000002 (js "b-0").

Definition tool_C : ToolEventData :=
  ToolContent.mk (js "C") (js "browser") (js "browser_view") JNull
    None calling 1700000003 (js "c-0").

Definition s1_running : StepEventData.t :=
  StepEventData.mk (js "s1") (js "first step") running (js "s-0").

Definition s1_completed : StepEventData.t :=
  StepEventData.mk (js "s1") (js "first step") completed (js "s-1").

(** A clock reading, in milliseconds: 2023-11-14T22:13:40Z. *)
Definition a_moment : Z := 1700000020000.

(** The page after the tool call "t1" has completed, ten seconds before
    [a_moment]; the tool object is at address 0. *)
Definition t1_done_page : Page :=
  handleEvent (Event.tool t1_called_ok) thinking_page.

(** A fetched session that is still running, with four events. *)
Definition running_session : GetSessionResponse :=
  {| session_status := RUNNING;
     session_events :=
       [Event.message hi_message; Event.step s1_running;
        Event.tool tool_A; Event.plan (PlanEventData.mk [] (js "p-0"))] |}.

(** A page whose transcript ends with a running step. *)
Definition stepping_page : Page :=
  handleEvent (Event.step s1_running) thinking_page.

(** * The rest of [api/agent.ts] *)

(** The calls of [agent.ts] go through [apiClient] and
    [createSSEConnection], which build the HTTP request from a verb, a path
    under the API base and an optional JSON body; a call is modelled by the
    request it hands over. *)
Module agent.

Inductive Method := GET | POST | PUT | DELETE.

Inductive Body :=
| NoBody
| ExpireMinutes (expire_minutes : Z)
| ShellSessionId (session_id : jsstring)
| FilePath (file : jsstring)
| Chat (body : agentApi.ChatBody).

(** [sse] tells a streamed request ([createSSEConnection]) from a plain one. *)
Record Request := {
  method : Method;
  path : jsstring;
  body : Body;
  sse : bool
}.

Definition createSession : Request :=
  {| method := PUT; path := js "/sessions"; body := NoBody; sse := false |}.

Definition getSession (sessionId : jsstring) : Request :=
  {| method := GET; path := js "/sessions/" ++ sessionId; body := NoBody; sse := false |}.

Definition getSessions : Request :=
  {| method := GET; path := js "/sessions"; body := NoBody; sse := false |}.

Definition getSessionsSSE : Request :=
  {| method := POST; path := js "/sessions"; body := NoBody; sse := true |}.

Definition deleteSession (sessionId : jsstring) : Request :=
  {| method := DELETE; path := js "/sessions/" ++ sessionId; body := NoBody; sse := false |}.

Definition stopSession (sessionId : jsstring) : Request :=
  {| method := POST; path := js "/sessions/" ++ sessionId ++ js "/stop";
     body := NoBody; sse := false |}.

(** [expireMinutes] is [None] when the argument is left out. *)
Definition createVncSignedUrl (sessionId : jsstring) (expireMinutes : option Z) : Request :=
  {| method := POST;
     path := js "/sessions/" ++ sessionId ++ js "/vnc/signed-url";
     body := ExpireMinutes (default 15 expireMinutes);
     sse := false |}.

(** What follows [prefix] in [s], when [s] begins with it. *)
Fixpoint strip_prefix (prefix s : jsstring) : option jsstring :=
  match prefix, s with
  | [], _ => Some s
  | c :: prefix', d :: s' => if (c =? d)%N then strip_prefix prefix' s' else None
  | _ :: _, [] => None
  end.

(** [host.replace(/^http/, 'ws')] *)
Definition wsBaseUrl (host : jsstring) : jsstring :=
  match strip_prefix (js "http") host with
  | Some rest => js "ws" ++ rest
  | None => host
  end.

(** [getVNCUrl]: the request it issues, and the URL it builds from the
    host of [API_CONFIG] and the [signed_url] of the response. *)
Definition getVNCUrl_request (sessionId : jsstring) (expireMinutes : option Z) : Request :=
  createVncSignedUrl sessionId (Some (default 15 expireMinutes)).

Definition getVNCUrl (host signed_url : jsstring) : jsstring :=
  wsBaseUrl host ++ signed_url.

Definition chatWithSession (now : Z) (sessionId message : jsstring)
    (eventId : option jsstring) (attachments : list jsstring) : Request :=
  let r := agentApi.chatWithSession now sessionId message eventId attachments in
  {| method := POST; path := agentApi.path r; body := Chat (agentApi.body r);
     sse := true |}.

Definition viewShellSession (sessionId shellSessionId : jsstring) : Request :=
  {| method := POST; path := js "/sessions/" ++ sessionId ++ js "/shell";
     body := ShellSessionId shellSessionId; sse := false |}.

Definition viewFile (sessionId file : jsstring) : Request :=
  {| method := POST; path := js "/sessions/" ++ sessionId ++ js "/file";
     body := FilePath file; sse := false |}.

Definition getSessionFiles (sessionId : jsstring) : Request :=
  {| method := GET; path := js "/sessions/" ++ sessionId ++ js "/files";
     body := NoBody; sse := false |}.

Definition clearUnreadMessageCount (sessionId : jsstring) : Request :=
  {| method := POST;
     path := js "/sessions/" ++ sessionId ++ js "/clear_unread_message_count";
     body := NoBody; sse := false |}.

End agent.

(** * [utils/dom.ts] *)

Module dom.

(** An element with the chain of its parents; [node] names the DOM node. *)
Inductive Element :=
| root (node : nat)
| child (node : nat) (parent : Element).

Definition parentElement (e : Element) : option Element :=
  match e with
  | root _ => None
  | child _ p => Some p
  end.

Section Document.

(** The document: what [document.querySelector] finds, and which elements
    a selector matches. *)
Context (querySelector : jsstring -> option Element).
Context (matches : Element -> jsstring -> bool).

(** [element.closest(selector)]: the element itself or the nearest of its
    ancestors that matches. *)
Fixpoint closest (e : Element) (selector : jsstring) : option Element :=
  if matches e selector then Some e
  else
    match e with
    | child _ p => closest p selector
    | root _ => None
    end.

(** The first argument: a selector string, or an element (which may be
    [null] at run time). *)
Inductive Target :=
| BySelector (selector : jsstring)
| ByElement (e : option Element).

(** The result and the texts passed to [console.warn]. *)
Definition getParentElement (selector : Target) (parentSelector : option jsstring)
    : option Element * list jsstring :=
  let found :=
    match selector with
    | BySelector s => querySelector s
    | ByElement e => e
    end in
  match found with
  | None =>
      (None,
       [js "Could not find element: "
        ++ match selector with
           | BySelector s => s
           | ByElement _ => js "provided element"
           end])
  | Some e =>
      if truthy (default [] parentSelector) then
        match closest e (default [] parentSelector) with
        | None =>
            (None,
             [js "Could not find parent element with selector: "
              ++ default [] parentSelector])
        | Some parent => (Some parent, [])
        end
      else
        match parentElement e with
        | None => (None, [js "Could not find parent element"])
        | Some parent => (Some parent, [])
        end
  end.

End Document.

(** The elements above [e], nearest first. *)
Fixpoint ancestors (e : Element) : list Element :=
  match e with
  | child _ p => p :: ancestors p
  | root _ => []
  end.

End dom.

(** * Vocabulary of the further properties *)

(** The calls of [agent.ts] that name a session, by operation. *)
Inductive SessionCall :=
| CallGetSession
| CallDeleteSession
| CallStopSession
| CallCreateVncSignedUrl
| CallChat
| CallViewShellSession
| CallViewFile
| CallGetSessionFiles
| CallClearUnreadMessageCount.

(** The verb and path of each, as [agent.ts] builds them. *)
Definition endpoint (c : SessionCall) (sessionId : jsstring) : agent.Method * jsstring :=
  let r :=
    match c with
    | CallGetSession => agent.getSession sessionId
    | CallDeleteSession => agent.deleteSession sessionId
    | CallStopSession => agent.stopSession sessionId
    | CallCreateVncSignedUrl => agent.createVncSignedUrl sessionId None
    | CallChat => agent.chatWithSession 0 sessionId [] None []
    | CallViewShellSession => agent.viewShellSession sessionId []
    | CallViewFile => agent.viewFile sessionId []
    | CallGetSessionFiles => agent.getSessionFiles sessionId
    | CallClearUnreadMessageCount => agent.clearUnreadMessageCount sessionId
    end in
  (agent.method r, agent.path r).

(** The code unit of the slash. *)
Definition slash : N := 47.

(** A small document: a button in a row in a card. *)
Definition a_card : dom.Element := dom.root 1.
Definition a_row : dom.Element := dom.child 2 a_card.
Definition a_button : dom.Element := dom.child 3 a_row.

(** The selector ".card" matches node 1, any other selector nothing. *)
Definition matches_card (e : dom.Element) (selector : jsstring) : bool :=
  bool_decide (selector = js ".card") &&
  match e with dom.root n | dom.child n _ => Nat.eqb n 1 end.

(** ** The transcript as the reducer sees it *)

(** What tool and step handling read and write: the transcript, the tool
    objects, the tracked tool and the last non-message tool. *)
Definition view (p : Page) :
    list Message * list ToolContent.t * option addr * option addr :=
  (messages (state p), store p, lastTool (state p), lastNoMessageTool (state p)).

(** Message and attachment entries. *)
Definition plain (m : Message) : bool :=
  match m with
  | MessageEntry _ _ | AttachmentsEntry _ => true
  | _ => false
  end.

(** One step of any handler, as far as the view goes: an event is folded,
    plain entries are appended (possibly none), or, on a route change only,
    the state is reset while the tool objects stay where they are. *)
Inductive micro (resets : bool) (p q : Page) : Prop :=
| micro_event (e : Event.t) :
    view q = view (handleEvent e p) -> micro resets p q
| micro_push (k : list Message) :
    forallb plain k = true ->
    view q = (messages (state p) ++ k, store p, lastTool (state p),
              lastNoMessageTool (state p)) ->
    micro resets p q
| micro_reset :
    resets = true ->
    view q = ([], store p, None, None) ->
    micro resets p q.

Definition navigates (a : Action) : bool :=
  match a with RouteUpdate _ _ _ _ _ => true | _ => false end.

(** The last non-message tool, when there is one, is an object. *)
Definition lastNoMessageTool_in_store (p : Page) : Prop :=
  forall a, lastNoMessageTool (state p) = Some a -> (a < length (store p))%nat.

(** A step entry shows one of the two statuses the reducer writes. *)
Definition shown_status_ok (m : Message) : bool :=
  match m with
  | StepEntry c =>
      match StepContent.status c with
      | running | completed => true
      | _ => false
      end
  | _ => true
  end.



(** Every object stays in the store and keeps its [tool_call_id]. *)
Definition objects_kept (s s' : list ToolContent.t) : Prop :=
  forall b o, s !! b = Some o ->
    exists o', s' !! b = Some o' /\
               ToolContent.tool_call_id o' = ToolContent.tool_call_id o.

(** An entry as the reducer appends it: a step entry starts running and
    without tools. *)
Definition fresh_entry (m : Message) : Prop :=
  match m with
  | StepEntry c => StepContent.status c = running /\ StepContent.tools c = []
  | _ => True
  end.

(** A page reached in three actions: mounted on a session route with a
    first message, then a tool call and an error delivered. *)
Definition a_reached_page : Page :=
  perform (fun k => k) (Deliver (CbMessage (Event.error boom_error)))
    (perform (fun k => k) (Deliver (CbMessage (Event.tool tool_A)))
       (perform (fun k => k)
          (Mounted a_moment a_moment (Some (js "s")) (Some (js "hello")) []
             (Rejected JNull) (Resolved 1%nat))
          (mount (fun k => k)))).

Definition s1_failed : StepEventData.t :=
  StepEventData.mk (js "s1") (js "first step") failed (js "s-2").

(** The payloads of the plan, title and tool events of a list. *)
Definition plans (es : list Event.t) : list PlanEventData.t :=
  omap (fun e => match e with Event.plan d => Some d | _ => None end) es.

Definition titles (es : list Event.t) : list jsstring :=
  omap (fun e => match e with
                 | Event.title d => Some (TitleEventData.title d)
                 | _ => None
                 end) es.

Definition tool_events (es : list Event.t) : list ToolEventData :=
  omap (fun e => match e with Event.tool d => Some d | _ => None end) es.

(** The inspector notifications of a live fold: one for each tool event
    whose name is not "message", for the object created for that event; [n]
    is the address the next tool object gets. *)
Fixpoint notified (n : nat) (es : list Event.t) : list Effect :=
  match es with
  | [] => []
  | Event.tool d :: es' =>
      (if decide (ToolContent.name d = js "message") then []
       else [ShowToolPanel n true])
      ++ notified (S n) es'
  | _ :: es' => notified n es'
  end.

(** The actions that can change the stored cancel function: a chat call
    (alone or after a restore), the close and error callbacks, unmounting
    and a route change. *)
Definition may_change_channel (a : Action) : bool :=
  match a with
  | Deliver CbClose | Deliver (CbError _) => true
  | Mounted _ _ _ _ _ _ _ | Submit _ _ _ | Restore _ _ _ _
  | RouteUpdate _ _ _ _ _ | Unmounted => true
  | _ => false
  end.

(** The actions that can change the session id: mounting and a route
    change. *)
Definition may_change_session (a : Action) : bool :=
  match a with
  | Mounted _ _ _ _ _ _ _ | RouteUpdate _ _ _ _ _ => true
  | _ => false
  end.

(** The actions that can move the resume cursor: an event, delivered or
    replayed, and a route change. *)
Definition may_move_cursor (a : Action) : bool :=
  match a with
  | Deliver (CbMessage _) => true
  | Mounted _ _ _ _ _ _ _ | Restore _ _ _ _ | RouteUpdate _ _ _ _ _ => true
  | _ => false
  end.

(** A page with a typed message and two attached files. *)
Definition two_files : list FileInfo :=
  [{| file_id := js "f1" |}; {| file_id := js "f2" |}].

Definition drafting_page : Page :=
  with_state (fun s =>
    mkState (js "see attached") (isLoading s) (sessionId s) (messages s)
      (toolPanelSize s) (realTime s) (follow s) (title s) (plan s)
      (lastNoMessageTool s) (lastMessageTool s) (lastTool s) (lastEventId s)
      (cancelCurrentChat s) two_files)
    thinking_page.

(** A page reached by a step that starts and then fails. *)
Definition a_failed_step_page : Page :=
  perform (fun k => k) (Deliver (CbMessage (Event.step s1_failed)))
    (perform (fun k => k) (Deliver (CbMessage (Event.step s1_running)))
       (mount (fun k => k))).

(** * Properties *)

(** ** Basic facts about the log and the store *)

Lemma handleEvents_app es es' p :
  handleEvents (es ++ es') p = handleEvents es' (handleEvents es p).
Proof. unfold handleEvents. apply foldl_app. Qed.

Lemma handleEvents_cons e es p :
  handleEvents (e :: es) p = handleEvents es (handleEvent e p).
Proof. reflexivity. Qed.

Lemma handleEvent_cursor e p :
  lastEventId (state (handleEvent e p)) = Some (Event.event_id e).
Proof. reflexivity. Qed.

(** ** C3: the resume cursor *)

(** C3. Whatever its kind, folding an event leaves [lastEventId] equal to
    that event's [event_id]; after folding [e1..en] the cursor is [en]'s id,
    also when [en] is a [done] or [wait] event, and also when the events are
    replayed by [restoreSession]. *)
Theorem C3_cursor_is_last_event_id :
  (forall e p, lastEventId (state (handleEvent e p)) = Some (Event.event_id e)) /\
  (forall es e p,
     lastEventId (state (handleEvents (es ++ [e]) p)) = Some (Event.event_id e)) /\
  (forall es i p,
     lastEventId (state (handleEvents (es ++ [Event.done i]) p)) = Some i /\
     lastEventId (state (handleEvents (es ++ [Event.wait i]) p)) = Some i) /\
  (forall es e p,
     lastEventId (state (replay (es ++ [e]) p)) = Some (Event.event_id e)).
Proof.
  split; [exact handleEvent_cursor|].
  assert (Hfold : forall es e p,
    lastEventId (state (handleEvents (es ++ [e]) p)) = Some (Event.event_id e)).
  { intros es e p. rewrite handleEvents_app. apply handleEvent_cursor. }
  split; [exact Hfold|]. split.
  - intros es i p. split; apply Hfold.
  - intros es e p. unfold replay. cbn [state set_realTime with_state lastEventId].
    apply Hfold.
Qed.

(** ** C8: the [error] event *)

(** C8. An [error] event stops the loading indicator and appends exactly
    one entry of type 'assistant' whose content is the error text and whose
    timestamp is the event's; a user message "hi" followed by the error
    "boom" gives the transcript [UserMessage hi; AssistantMessage boom] with
    loading false. *)
Theorem C8_error_event :
  (forall d p,
     let p' := handleEvent (Event.error d) p in
     isLoading (state p') = false /\
     exists entry,
       messages (state p') = messages (state p) ++ [entry] /\
       type entry = type_assistant /\
       entry = MessageEntry assistant
                 (TextContent (ErrorEventData.error d) (ErrorEventData.timestamp d))) /\
  (forall t loading,
     let p := set_isLoading loading (mount t) in
     let p' := handleEvents [Event.message hi_message; Event.error boom_error] p in
     isLoading (state p') = false /\
     exists m1 m2,
       messages (state p') = [m1; m2] /\
       type m1 = type_user /\ (exists c, m1 = MessageEntry user c /\ content_of c = js "hi") /\
       type m2 = type_assistant /\
       (exists c, m2 = MessageEntry assistant c /\ content_of c = js "boom" /\
                  timestamp_of c = ErrorEventData.timestamp boom_error)).
Proof.
  split.
  - intros d p p'. split; [reflexivity|].
    eexists. split; [reflexivity|]. split; reflexivity.
  - intros t loading p p'. split; [reflexivity|].
    do 2 eexists. split; [reflexivity|].
    split; [reflexivity|]. split; [eexists; split; reflexivity|].
    split; [reflexivity|]. eexists. repeat split.
Qed.

(** ** C7: a transport error *)

Lemma onError_log err p :
  log (onError err p) = log p ++ [ConsoleError (js "Chat error:") err].
Proof. unfold onError, clear_cancelCurrentChat. case_match; reflexivity. Qed.

(** C7, as the code has it. When the channel reports a transport error the
    controller clears the loading indicator and the stored cancel function,
    leaves the transcript and its tool objects as they were, and makes one
    call: [console.error]. It returns normally. No error toast is shown. *)
Theorem C7_transport_error_is_logged :
  forall err p,
    let p' := onError err p in
    isLoading (state p') = false /\
    cancelCurrentChat (state p') = None /\
    messages (state p') = messages (state p) /\
    store p' = store p /\
    calls_since (length (log p)) p' = [ConsoleError (js "Chat error:") err] /\
    forallb (fun e => negb (is_ShowErrorToast e)) (calls_since (length (log p)) p') = true.
Proof.
  intros err p p'.
  assert (Hlog : calls_since (length (log p)) p' = [ConsoleError (js "Chat error:") err]).
  { unfold calls_since, p'. rewrite onError_log. by rewrite drop_app_length. }
  rewrite Hlog. unfold p', onError, clear_cancelCurrentChat.
  destruct (cancelCurrentChat _) eqn:Hc; simpl; rewrite ?Hc; repeat split.
  exact Hc.
Qed.

(** C7 as worded fails: after a transport error on a page with an open
    channel, no call to the error toast has been made. *)
Lemma C7_no_error_toast :
  let p' := onError (JStr (js "network down")) streaming_page in
  isLoading (state p') = false /\
  ~ (exists text, ShowErrorToast text ∈ log p').
Proof.
  split; [reflexivity|].
  intros [text H]. vm_compute in H.
  apply list_elem_of_In in H. simpl in H. destruct H as [H|[]]. discriminate H.
Qed.

(** ** C6: sending a message *)

Lemma trimStart_nil s : trimStart s = [] <-> forallb isWhiteSpace s = true.
Proof.
  induction s as [|c s IH]; simpl; [tauto|].
  destruct (isWhiteSpace c); simpl; [exact IH|]. split; discriminate.
Qed.

Lemma trimStart_blank_tail s : forallb isWhiteSpace (trimStart s) = true -> trimStart s = [].
Proof.
  induction s as [|c s IH]; simpl; [reflexivity|].
  destruct (isWhiteSpace c) eqn:Hc; [exact IH|]. simpl. rewrite Hc. discriminate.
Qed.

Lemma forallb_rev (f : N -> bool) s : forallb f (rev s) = forallb f s.
Proof.
  induction s as [|c s IH]; [reflexivity|].
  simpl. rewrite forallb_app, IH. simpl. rewrite andb_true_r. apply andb_comm.
Qed.

(** [message.trim()] is falsy exactly for the messages made of white space
    only, the empty one among them. *)
Lemma trim_falsy_iff_blank s :
  truthy (trim s) = false <-> forallb isWhiteSpace s = true.
Proof.
  unfold trim, trimEnd. split.
  - intros H. apply trimStart_nil, trimStart_blank_tail.
    destruct (rev (trimStart (rev (trimStart s)))) eqn:Hr; [|discriminate].
    apply (f_equal (@rev N)) in Hr. rewrite rev_involutive in Hr. simpl in Hr.
    apply trimStart_nil in Hr. by rewrite forallb_rev in Hr.
  - intros H. apply trimStart_nil in H. rewrite H. reflexivity.
Qed.

(** C6, as the code has it. Without a session id [chat] does nothing. With
    one, a message that is non-empty after trimming is appended as a user
    entry (followed by an attachments entry when files are given) before the
    request is issued, follow mode and the loading indicator are set, and
    the request is the next call made. *)
Theorem C6_chat_appends_before_request :
  (forall now now_api r message files p,
     current_session p = None ->
     chat now now_api r message files p = p) /\
  (forall now now_api message files p sid,
     current_session p = Some sid ->
     truthy (trim message) = true ->
     let q := chat_prepare now message files p in
     let sent := chat_send now now_api message files p in
     messages (state q) =
       messages (state p)
       ++ [MessageEntry user (TextContent message (agentApi.unix_seconds now))]
       ++ match files with [] => [] | _ :: _ => [AttachmentsEntry (UserFiles files)] end /\
     follow (state q) = true /\
     isLoading (state q) = true /\
     state sent = state q /\
     log sent = log q ++
       [CreateSSEConnection
          (agentApi.chatWithSession now_api sid message (lastEventId (state p))
             (map file_id files))] /\
     forallb (fun e => match e with CreateSSEConnection _ => false | _ => true end)
       (calls_since (length (log p)) q) = true).
Proof.
  split.
  - intros now now_api r message files p H. unfold chat. by rewrite H.
  - intros now now_api message files p sid Hs Ht q sent.
    unfold sent, chat_send. rewrite Hs. unfold q, chat_prepare. rewrite Ht.
    unfold calls_since.
    destruct (cancelCurrentChat (state p)) as [h|] eqn:Hc; destruct files as [|f fs];
      simpl; rewrite ?drop_app_length, ?drop_all, <- ?app_assoc;
      repeat split; reflexivity.
Qed.

Lemma C6_chat_witness :
  messages (state (chat_prepare a_moment (js "hello") [] thinking_page)) =
    [MessageEntry user (TextContent (js "hello") 1700000020)] /\
  chat a_moment a_moment (Resolved 1%nat) (js "hello") [] (mount (fun k => k)) =
    mount (fun k => k).
Proof.
  split.
  - exact (proj1 ((proj2 C6_chat_appends_before_request) a_moment a_moment
             (js "hello") [] thinking_page (js "s") eq_refl eq_refl)).
  - exact ((proj1 C6_chat_appends_before_request) a_moment a_moment
             (Resolved 1%nat) (js "hello") [] (mount (fun k => k)) eq_refl).
Defined.

(** C6 as worded fails: a message of one space is not empty, yet with a
    session id set no user entry is appended for it. *)
Lemma C6_blank_message_not_appended :
  let message := js " " in
  let sent := chat_send a_moment a_moment message [] thinking_page in
  current_session thinking_page = Some (js "s") /\
  message <> [] /\
  messages (state sent) = messages (state thinking_page) /\
  ~ (exists entry, messages (state sent) = messages (state thinking_page) ++ [entry]).
Proof.
  split; [reflexivity|]. split; [discriminate|]. split; [reflexivity|].
  intros [entry H]. vm_compute in H. discriminate H.
Qed.

(** ** What the reducer leaves alone *)

Lemma handleToolEvent_controller_fields d p :
  let p' := handleToolEvent d p in
  sessionId (state p') = sessionId (state p) /\
  cancelCurrentChat (state p') = cancelCurrentChat (state p) /\
  realTime (state p') = realTime (state p) /\
  toolPanel p' = toolPanel p.
Proof.
  unfold handleToolEvent. repeat (case_match; simpl); repeat split.
Qed.

Lemma handleEvent_controller_fields e p :
  let p' := handleEvent e p in
  sessionId (state p') = sessionId (state p) /\
  cancelCurrentChat (state p') = cancelCurrentChat (state p) /\
  realTime (state p') = realTime (state p) /\
  toolPanel p' = toolPanel p.
Proof.
  destruct e as [d|d|d|i|i|d|d|d]; simpl; try (repeat split; fail).
  - unfold handleMessageEvent. destruct (has_attachments d); repeat split.
  - apply handleToolEvent_controller_fields.
  - unfold handleStepEvent. repeat (case_match; simpl); repeat split.
Qed.

Lemma handleEvents_controller_fields es : forall p,
  let p' := handleEvents es p in
  sessionId (state p') = sessionId (state p) /\
  cancelCurrentChat (state p') = cancelCurrentChat (state p) /\
  realTime (state p') = realTime (state p) /\
  toolPanel p' = toolPanel p.
Proof.
  induction es as [|e es IH]; intros p; [repeat split|].
  rewrite handleEvents_cons. simpl.
  pose proof (IH (handleEvent e p)) as H.
  pose proof (handleEvent_controller_fields e p) as G.
  cbv zeta in *. destruct H as (-> & -> & -> & ->). exact G.
Qed.

(** With real-time mode off the reducer makes no call at all. *)
Lemma handleEvent_silent e p :
  realTime (state p) = false -> log (handleEvent e p) = log p.
Proof.
  intros Hrt.
  destruct e as [d|d|d|i|i|d|d|d]; simpl; try reflexivity.
  - unfold handleMessageEvent. destruct (has_attachments d); reflexivity.
  - unfold handleToolEvent.
    match goal with
    | |- context [if decide _ then ?q else _] => set (placed := q)
    end.
    assert (Hq1 : realTime (state placed) = false)
      by (subst placed; repeat (case_match; simpl); auto).
    assert (Hq2 : log placed = log p)
      by (subst placed; repeat (case_match; simpl); auto).
    clearbody placed.
    destruct (decide _); [exact Hq2|].
    cbn [set_lastNoMessageTool with_state state realTime toolPanel].
    rewrite Hq1. exact Hq2.
  - unfold handleStepEvent. repeat (case_match; simpl); reflexivity.
Qed.

Lemma handleEvents_silent es : forall p,
  realTime (state p) = false -> log (handleEvents es p) = log p.
Proof.
  induction es as [|e es IH]; intros p Hrt; [reflexivity|].
  rewrite handleEvents_cons, IH.
  - by apply handleEvent_silent.
  - pose proof (handleEvent_controller_fields e p) as H. cbv zeta in H.
    destruct H as (_ & _ & H & _). congruence.
Qed.

(** The calls the reducer makes are tool-panel notifications only. *)
Lemma handleEvent_log e p :
  log (handleEvent e p) = log p \/
  exists a, log (handleEvent e p) = log p ++ [ShowToolPanel a true].
Proof.
  destruct e as [d|d|d|i|i|d|d|d]; simpl; try (left; reflexivity).
  - unfold handleMessageEvent. destruct (has_attachments d); left; reflexivity.
  - unfold handleToolEvent.
    repeat (case_match; simpl in *); try (left; reflexivity); right; eauto.
  - unfold handleStepEvent. repeat (case_match; simpl); left; reflexivity.
Qed.

Lemma agree_handleEvent e p q :
  agree_modulo_realTime p q ->
  agree_modulo_realTime (handleEvent e p) (handleEvent e q).
Proof.
  destruct p as [[] sp tp lp], q as [[] sq tq lq].
  unfold agree_modulo_realTime. simpl. intros (-> & -> & H).
  injection H as -> -> -> -> -> -> -> -> -> -> -> -> -> ->.
  destruct e as [d|d|d|i|i|d|d|d]; simpl; try (repeat split; fail).
  - unfold handleMessageEvent. destruct (has_attachments d); repeat split.
  - unfold handleToolEvent, tracked, getLastStep; simpl.
    repeat (case_match; simpl in *; simplify_eq); repeat split.
  - unfold handleStepEvent, getLastStep; simpl.
    repeat (case_match; simpl in *; simplify_eq); repeat split.
Qed.

Lemma agree_handleEvents es : forall p q,
  agree_modulo_realTime p q ->
  agree_modulo_realTime (handleEvents es p) (handleEvents es q).
Proof.
  induction es as [|e es IH]; intros p q H; [exact H|].
  rewrite !handleEvents_cons. apply IH. by apply agree_handleEvent.
Qed.

(** Replaying gives the state of the live fold, in real-time mode, and
    makes no call. *)
Lemma replay_live es p q :
  agree_modulo_realTime p q ->
  state (replay es p) = state (set_realTime true (handleEvents es q)) /\
  store (replay es p) = store (handleEvents es q) /\
  log (replay es p) = log p.
Proof.
  intros Hpq.
  assert (Ha : agree_modulo_realTime (handleEvents es (set_realTime false p))
                                     (handleEvents es q)).
  { apply agree_handleEvents. destruct Hpq as (H1 & H2 & H3).
    destruct p as [[] ? ? ?], q as [[] ? ? ?]. repeat split; assumption. }
  destruct Ha as (Hs & _ & Hst).
  unfold replay. split; [exact Hst|]. split; [exact Hs|].
  change (log (handleEvents es (set_realTime false p)) = log p).
  rewrite handleEvents_silent; reflexivity.
Qed.

Lemma replay_controller_fields es p :
  sessionId (state (replay es p)) = sessionId (state p) /\
  cancelCurrentChat (state (replay es p)) = cancelCurrentChat (state p) /\
  realTime (state (replay es p)) = true /\
  toolPanel (replay es p) = toolPanel p.
Proof.
  pose proof (handleEvents_controller_fields es (set_realTime false p)) as H.
  cbv zeta in H. destruct H as (H1 & H2 & _ & H4).
  unfold replay. repeat split; assumption.
Qed.

(** A chat call with no message and no files re-attaches to the stream: it
    touches neither the transcript nor the plan, title or cursor. *)
Lemma chat_resume now now_api r p sid :
  current_session p = Some sid ->
  let p' := chat now now_api r [] [] p in
  messages (state p') = messages (state p) /\
  store p' = store p /\
  plan (state p') = plan (state p) /\
  title (state p') = title (state p) /\
  lastEventId (state p') = lastEventId (state p) /\
  realTime (state p') = realTime (state p) /\
  log p' = log p ++ cancel_calls p
           ++ [CreateSSEConnection (resume_request now_api sid (lastEventId (state p)))]
           ++ settle_calls r.
Proof.
  intros Hs. unfold chat, chat_send. rewrite Hs.
  unfold chat_prepare, chat_open, chat_settle, cancel_calls, resume_request.
  change (truthy (trim [])) with false. cbv iota.
  destruct (cancelCurrentChat (state p)) as [h|]; destruct r as [c|e];
    simpl; rewrite <- ?app_assoc; repeat split; reflexivity.
Qed.

Lemma restoreSession_unfold t now now_api session r p sid :
  current_session p = Some sid ->
  restoreSession t now now_api (Resolved session) r p =
    let replayed := replay (session_events session) (emit (GetSession sid) p) in
    emit (ClearUnreadMessageCount sid)
      (if is_active (session_status session)
       then chat now now_api r [] [] replayed
       else replayed).
Proof. intros Hs. unfold restoreSession. rewrite Hs. reflexivity. Qed.

Lemma current_session_replay es e p :
  current_session (replay es (emit e p)) = current_session p.
Proof.
  unfold current_session.
  destruct (replay_controller_fields es (emit e p)) as (-> & _). reflexivity.
Qed.

(** ** C4: restoring a session *)

(** C4. On a page with a session id, replaying the fetched events gives
    the state that folding them live gives (transcript with its tool
    objects, plan, title, cursor, and everything else), with real-time mode
    on again, and makes no call to [showToolPanel]: the only call up to the
    end of the replay is the fetch. When the fetched status is RUNNING or
    PENDING the replay is followed by a chat call with an empty message, no
    files and the replayed cursor, and otherwise by no chat call. *)
Theorem C4_restore_replays_silently :
  forall t now now_api session r p sid,
    current_session p = Some sid ->
    let events := session_events session in
    let live := handleEvents events p in
    let replayed := replay events (emit (GetSession sid) p) in
    let restored := restoreSession t now now_api (Resolved session) r p in
    (state replayed = state (set_realTime true live) /\
     store replayed = store live /\
     calls_since (length (log p)) replayed = [GetSession sid]) /\
    (messages (state restored) = messages (state live) /\
     store restored = store live /\
     plan (state restored) = plan (state live) /\
     title (state restored) = title (state live) /\
     lastEventId (state restored) = lastEventId (state live) /\
     realTime (state restored) = true) /\
    forallb (fun e => negb (is_ShowToolPanel e))
            (calls_since (length (log p)) restored) = true /\
    calls_since (length (log p)) restored =
      [GetSession sid]
      ++ (if is_active (session_status session)
          then cancel_calls p
               ++ [CreateSSEConnection
                     (resume_request now_api sid (lastEventId (state live)))]
               ++ settle_calls r
          else [])
      ++ [ClearUnreadMessageCount sid].
Proof.
  intros t now now_api session r p sid Hs events live replayed restored.
  assert (Hagree : agree_modulo_realTime (emit (GetSession sid) p) p)
    by (destruct p as [[] ? ? ?]; repeat split).
  destruct (replay_live events _ _ Hagree) as (Hst & Hsto & Hlog).
  fold replayed live in Hst, Hsto, Hlog.
  assert (Hcs : current_session replayed = Some sid)
    by (unfold replayed; rewrite current_session_replay; exact Hs).
  assert (Hcc : cancel_calls replayed = cancel_calls p).
  { unfold cancel_calls, replayed.
    destruct (replay_controller_fields events (emit (GetSession sid) p))
      as (_ & -> & _). reflexivity. }
  assert (Hcalls :
    calls_since (length (log p)) restored =
      [GetSession sid]
      ++ (if is_active (session_status session)
          then cancel_calls p
               ++ [CreateSSEConnection
                     (resume_request now_api sid (lastEventId (state live)))]
               ++ settle_calls r
          else [])
      ++ [ClearUnreadMessageCount sid]).
  { unfold restored, calls_since. rewrite (restoreSession_unfold _ _ _ _ _ _ _ Hs).
    cbv zeta. fold events. fold replayed.
    destruct (is_active (session_status session)).
    - destruct (chat_resume now now_api r replayed sid Hcs) as (_&_&_&_&_&_&Hl).
      cbn [emit log]. rewrite Hl, Hlog, Hcc, Hst. cbn [emit log].
      rewrite <- !app_assoc. by rewrite drop_app_length.
    - cbn [emit log]. rewrite Hlog. cbn [emit log].
      rewrite <- !app_assoc. by rewrite drop_app_length. }
  split; [|split; [|split]].
  - repeat split; [exact Hst|exact Hsto|].
    unfold calls_since. rewrite Hlog. cbn [emit log]. by rewrite drop_app_length.
  - unfold restored. rewrite (restoreSession_unfold _ _ _ _ _ _ _ Hs).
    cbv zeta. fold events. fold replayed.
    destruct (is_active (session_status session)).
    + destruct (chat_resume now now_api r replayed sid Hcs)
        as (H1 & H2 & H3 & H4 & H5 & H6 & _).
      cbn [emit state store]. rewrite H1, H2, H3, H4, H5, H6, Hst, Hsto.
      repeat split.
    + cbn [emit state store]. rewrite Hst, Hsto. repeat split.
  - rewrite Hcalls. unfold cancel_calls, settle_calls.
    destruct (is_active _), (cancelCurrentChat (state p)), r; reflexivity.
  - exact Hcalls.
Qed.

Lemma C4_restore_witness :
  let restored :=
    restoreSession (fun k => k) a_moment a_moment (Resolved running_session)
      (Resolved 7%nat) thinking_page in
  messages (state restored) =
    messages (state (handleEvents (session_events running_session) thinking_page)) /\
  calls_since 0 restored =
    [GetSession (js "s");
     CreateSSEConnection (resume_request a_moment (js "s") (Some (js "p-0")));
     ClearUnreadMessageCount (js "s")].
Proof.
  pose proof (C4_restore_replays_silently (fun k => k) a_moment a_moment
                running_session (Resolved 7%nat) thinking_page (js "s")
                eq_refl) as H.
  cbv zeta in H. destruct H as (_ & (Hm & _) & _ & Hc).
  split; [exact Hm|exact Hc].
Defined.

(** ** C5: one stored channel *)

(** Calls are only ever appended to the log. *)
Lemma chat_log now now_api r message files p :
  exists later, log (chat now now_api r message files p) = log p ++ later.
Proof.
  unfold chat, chat_send, chat_prepare, chat_open, chat_settle.
  destruct (current_session p); [|exists []; by rewrite app_nil_r].
  destruct (cancelCurrentChat (state p)), (truthy (trim message)), files, r;
    simpl; rewrite <- ?app_assoc; eexists; reflexivity.
Qed.

Lemma restoreSession_log t now now_api fetched r p :
  exists later, log (restoreSession t now now_api fetched r p) = log p ++ later.
Proof.
  unfold restoreSession.
  destruct (current_session p) as [sid|]; [|eexists; reflexivity].
  destruct fetched as [session|err]; [|eexists; reflexivity].
  assert (Hrep : log (replay (session_events session) (emit (GetSession sid) p))
                 = log p ++ [GetSession sid]).
  { unfold replay.
    change (log (handleEvents (session_events session)
                   (set_realTime false (emit (GetSession sid) p)))
            = log p ++ [GetSession sid]).
    rewrite handleEvents_silent; reflexivity. }
  destruct (is_active (session_status session)).
  - destruct (chat_log now now_api r [] []
                (replay (session_events session) (emit (GetSession sid) p)))
      as [later Hl].
    cbn [emit log]. rewrite Hl, Hrep, <- !app_assoc. eexists; reflexivity.
  - cbn [emit log]. rewrite Hrep, <- !app_assoc. eexists; reflexivity.
Qed.

Lemma chat_send_calls now now_api message files p sid :
  current_session p = Some sid ->
  let sent := chat_send now now_api message files p in
  cancelCurrentChat (state sent) = None /\
  lastEventId (state sent) = lastEventId (state p) /\
  calls_since (length (log p)) sent =
    cancel_calls p
    ++ [CreateSSEConnection
          (agentApi.chatWithSession now_api sid message (lastEventId (state p))
             (map file_id files))].
Proof.
  intros Hs. unfold chat_send. rewrite Hs.
  unfold chat_prepare, chat_open, cancel_calls, calls_since.
  destruct (cancelCurrentChat (state p)) as [h|] eqn:Hc;
    destruct (truthy (trim message)); destruct files as [|f fs];
    simpl; rewrite <- ?app_assoc, ?drop_app_length; repeat split; assumption.
Qed.

(** C5. The stored cancel function is the only handle the controller
    keeps. [chat] invokes the stored cancel function, if there is one, and
    clears it before it issues the request that opens the new channel, and
    it then stores the one cancel function the request resolves to; the
    resume issued by [restoreSession] is such a [chat] call. Unmounting and
    resetting the state on a route change invoke the stored cancel function
    whenever one is stored, and leave none stored. *)
Theorem C5_cancel_before_open :
  (forall now now_api message files p sid,
     current_session p = Some sid ->
     let sent := chat_send now now_api message files p in
     cancelCurrentChat (state sent) = None /\
     exists request,
       calls_since (length (log p)) sent =
         cancel_calls p ++ [CreateSSEConnection request]) /\
  (forall now now_api message files p sid h,
     current_session p = Some sid ->
     cancelCurrentChat (state (chat now now_api (Resolved h) message files p)) = Some h) /\
  (forall t now now_api session r p sid,
     current_session p = Some sid ->
     is_active (session_status session) = true ->
     exists request,
       calls_since (length (log p))
         (restoreSession t now now_api (Resolved session) r p) =
       [GetSession sid] ++ cancel_calls p ++ [CreateSSEConnection request]
       ++ settle_calls r ++ [ClearUnreadMessageCount sid]) /\
  (forall p,
     calls_since (length (log p)) (onUnmounted p) = cancel_calls p /\
     cancelCurrentChat (state (onUnmounted p)) = None) /\
  (forall t p,
     calls_since (length (log p)) (resetState t p) = cancel_calls p /\
     cancelCurrentChat (state (resetState t p)) = None) /\
  (forall t now now_api to fetched r p,
     exists later,
       calls_since (length (log p))
         (onBeforeRouteUpdate t now now_api to fetched r p) =
       (if toolPanel p then [HideToolPanel] else []) ++ [HideFilePanel]
       ++ cancel_calls p ++ later).
Proof.
  split; [|split; [|split; [|split; [|split]]]].
  - intros now now_api message files p sid Hs sent.
    destruct (chat_send_calls now now_api message files p sid Hs) as (H1 & _ & H2).
    split; [exact H1|]. eexists. exact H2.
  - intros now now_api message files p sid h Hs. unfold chat. rewrite Hs. reflexivity.
  - intros t now now_api session r p sid Hs Hact.
    rewrite (restoreSession_unfold _ _ _ _ _ _ _ Hs). cbv zeta. rewrite Hact.
    set (replayed := replay (session_events session) (emit (GetSession sid) p)).
    assert (Hcs : current_session replayed = Some sid)
      by (unfold replayed; rewrite current_session_replay; exact Hs).
    destruct (chat_resume now now_api r replayed sid Hcs) as (_&_&_&_&_&_&Hl).
    assert (Hlog : log replayed = log p ++ [GetSession sid]).
    { unfold replayed, replay.
      change (log (handleEvents (session_events session)
                     (set_realTime false (emit (GetSession sid) p)))
              = log p ++ [GetSession sid]).
      rewrite handleEvents_silent; reflexivity. }
    assert (Hcc : cancel_calls replayed = cancel_calls p).
    { unfold cancel_calls, replayed.
      destruct (replay_controller_fields (session_events session)
                  (emit (GetSession sid) p)) as (_ & -> & _). reflexivity. }
    eexists. unfold calls_since. cbn [emit log].
    rewrite Hl, Hlog, Hcc, <- !app_assoc, drop_app_length. reflexivity.
  - intros p. unfold onUnmounted, cancel_calls, calls_since.
    destruct (cancelCurrentChat (state p)) as [h|] eqn:Hc; simpl;
      rewrite ?drop_app_length, ?drop_all; auto.
  - intros t p. unfold resetState, call_cancelCurrentChat, cancel_calls, calls_since.
    destruct (cancelCurrentChat (state p)) as [h|]; simpl;
      rewrite ?drop_app_length, ?drop_all; auto.
  - intros t now now_api to fetched r p.
    unfold onBeforeRouteUpdate.
    set (q := resetState t _).
    assert (Hq : log q = log p ++ (if toolPanel p then [HideToolPanel] else [])
                         ++ [HideFilePanel] ++ cancel_calls p).
    { unfold q, resetState, call_cancelCurrentChat, cancel_calls.
      destruct (toolPanel p); destruct (cancelCurrentChat (state p)) as [h|] eqn:Hc;
        simpl; rewrite ?Hc; simpl; rewrite <- ?app_assoc; reflexivity. }
    assert (Hlater : exists later,
      log (match to with
           | Some sid =>
               if truthy sid
               then restoreSession t now now_api fetched r
                      (set_sessionId (Some sid) (set_messages [] q))
               else q
           | None => q
           end) = log q ++ later).
    { destruct to as [sid|]; [destruct (truthy sid)|];
        [|exists []; by rewrite app_nil_r..].
      destruct (restoreSession_log t now now_api fetched r
                  (set_sessionId (Some sid) (set_messages [] q))) as [later Hl].
      exists later. exact Hl. }
    destruct Hlater as [later Hl]. exists later.
    unfold calls_since. rewrite Hl, Hq, <- !app_assoc. by rewrite drop_app_length.
Qed.

Lemma C5_cancel_witness :
  cancelCurrentChat
    (state (chat_send a_moment a_moment (js "again") [] streaming_page)) = None /\
  exists request,
    calls_since (length (log streaming_page))
      (chat_send a_moment a_moment (js "again") [] streaming_page) =
    [CancelChat 1; CreateSSEConnection request].
Proof.
  exact ((proj1 C5_cancel_before_open) a_moment a_moment (js "again") []
           streaming_page (js "s") eq_refl).
Defined.

(** ** C9: the "live" flag of a clicked tool *)

(** A second-resolution timestamp that is not in the future never passes
    the recency test of [isLiveTool], which compares it with a clock in
    milliseconds: a completed tool is never reported live. *)
Lemma isLiveTool_called_seconds now tool p :
  301000 <= now ->
  ToolContent.status tool = called ->
  ToolContent.timestamp tool <= agentApi.unix_seconds now ->
  isLiveTool now tool p = false.
Proof.
  intros Hnow Hst Hts. unfold isLiveTool. rewrite Hst.
  destruct (isLastNoMessageTool tool p); [|reflexivity]. simpl.
  assert (agentApi.unix_seconds now <= now - 300000).
  { unfold agentApi.unix_seconds.
    pose proof (Z.div_mod now 1000 ltac:(lia)).
    pose proof (Z.mod_pos_bound now 1000 ltac:(lia)). lia. }
  destruct (Z.ltb_spec (now - 5 * 60 * 1000) (ToolContent.timestamp tool)); [lia|reflexivity].
Qed.

(** What [isLiveTool] computes: the recency test reads the timestamp as
    milliseconds. *)
Lemma isLiveTool_true now tool p :
  isLiveTool now tool p = true <->
  ToolContent.status tool = calling \/
  (isLastNoMessageTool tool p = true /\ now - 300000 < ToolContent.timestamp tool).
Proof.
  unfold isLiveTool. destruct (ToolContent.status tool).
  - split; auto.
  - destruct (isLastNoMessageTool tool p); simpl.
    + destruct (Z.ltb_spec (now - 5 * 60 * 1000) (ToolContent.timestamp tool)).
      * split; [intros _; right; split; [reflexivity|lia]|reflexivity].
      * split; [discriminate|]. intros [H'|[_ H']]; [discriminate|lia].
    + split; [discriminate|]. intros [H|[H _]]; discriminate.
Qed.

(** C9. Clicking the tool "t1", which completed ten seconds before the
    click and is the last non-message tool, turns real-time mode off and
    pins the inspector to it, but with the flag false, although the tool's
    timestamp lies within the last five minutes: [isLiveTool] compares the
    timestamp in seconds with [Date.now()] in milliseconds. *)
Theorem C9_click_reports_recent_tool_not_live :
  let clicked := handleToolClick a_moment 0 t1_done_page in
  store t1_done_page !! 0%nat = Some t1_called_ok /\
  isLastNoMessageTool t1_called_ok t1_done_page = true /\
  within_last_5_minutes a_moment (ToolContent.timestamp t1_called_ok) = true /\
  live_flag a_moment t1_called_ok t1_done_page = true /\
  isLiveTool a_moment t1_called_ok t1_done_page = false /\
  realTime (state clicked) = false /\
  calls_since (length (log t1_done_page)) clicked = [ShowToolPanel 0 false].
Proof. repeat split; vm_compute; reflexivity. Qed.

(** ** The last step entry *)

Lemma last_step_from_None ms : forall k,
  last_step_from k ms = None ->
  forall j c, ms !! j <> Some (StepEntry c).
Proof.
  induction ms as [|m ms IH]; intros k H j c; [by destruct j|].
  simpl in H. destruct (last_step_from (S k) ms) eqn:Hrec; [discriminate|].
  destruct j as [|j]; simpl.
  - destruct m; discriminate.
  - by eapply IH.
Qed.

Lemma last_step_from_lookup ms : forall k i c,
  last_step_from k ms = Some (i, c) ->
  (k <= i)%nat /\ ms !! (i - k)%nat = Some (StepEntry c) /\
  forall j c', (i - k < j)%nat -> ms !! j <> Some (StepEntry c').
Proof.
  induction ms as [|m ms IH]; intros k i c H; [discriminate|].
  simpl in H. destruct (last_step_from (S k) ms) as [[i' c'']|] eqn:Hrec.
  - injection H as -> ->. destruct (IH _ _ _ Hrec) as (Hle & Hl & Hlast).
    split; [lia|]. replace (i - k)%nat with (S (i - S k)) by lia.
    split; [exact Hl|]. intros j c' Hj. destruct j as [|j]; [lia|].
    simpl. apply Hlast. lia.
  - destruct m as [| | |c0]; try discriminate. injection H as <- <-.
    split; [lia|]. replace (k - k)%nat with 0%nat by lia.
    split; [reflexivity|]. intros j c' Hj. destruct j as [|j]; [lia|]. simpl.
    by eapply last_step_from_None.
Qed.

(** [getLastStep] returns the most recent step entry of the transcript. *)
Lemma getLastStep_lookup p i c :
  getLastStep p = Some (i, c) ->
  messages (state p) !! i = Some (StepEntry c) /\
  forall j c', (i < j)%nat -> messages (state p) !! j <> Some (StepEntry c').
Proof.
  intros H. apply last_step_from_lookup in H.
  replace (i - 0)%nat with i in H by lia. tauto.
Qed.

(** ** Placing and merging tool calls *)

(** What a step event does to the transcript; it touches neither the
    store nor the tracked tool. *)
Lemma handleStepEvent_view s p :
  let p' := handleEvent (Event.step s) p in
  messages (state p') =
    match StepEventData.status s with
    | running => messages (state p) ++ [StepEntry (StepContent.of_event s)]
    | completed =>
        match getLastStep p with
        | Some (i, c) =>
            <[i := StepEntry (StepContent.set_status completed c)]> (messages (state p))
        | None => messages (state p)
        end
    | _ => messages (state p)
    end /\
  store p' = store p /\
  lastTool (state p') = lastTool (state p).
Proof.
  unfold handleEvent, handleStepEvent.
  destruct (StepEventData.status s); [| |destruct (getLastStep p) as [[i c]|]|];
    repeat split.
Qed.

Lemma handleToolEvent_place d p :
  tracked (ToolContent.tool_call_id d) p = None ->
  let a := length (store p) in
  let p' := handleToolEvent d p in
  store p' = store p ++ [d] /\
  lastTool (state p') = Some a /\
  messages (state p') =
    match open_step p with
    | Some (i, c) => <[i := StepEntry (StepContent.push_tool a c)]> (messages (state p))
    | None => messages (state p) ++ [ToolEntry a]
    end.
Proof.
  intros Ht. unfold handleToolEvent, open_step. rewrite Ht.
  destruct (getLastStep p) as [[i c]|]; [destruct (StepContent.status c)|];
    repeat (case_match; simpl); repeat split.
Qed.

Lemma handleEvent_tool_place d p :
  tracked (ToolContent.tool_call_id d) p = None ->
  let a := length (store p) in
  let p' := handleEvent (Event.tool d) p in
  store p' = store p ++ [d] /\
  lastTool (state p') = Some a /\
  messages (state p') =
    match open_step p with
    | Some (i, c) => <[i := StepEntry (StepContent.push_tool a c)]> (messages (state p))
    | None => messages (state p) ++ [ToolEntry a]
    end.
Proof. exact (handleToolEvent_place d p). Qed.

Lemma handleToolEvent_merge d p a o :
  tracked (ToolContent.tool_call_id d) p = Some (a, o) ->
  let p' := handleToolEvent d p in
  messages (state p') = messages (state p) /\
  lastTool (state p') = lastTool (state p) /\
  store p' = <[a := Object_assign o d]> (store p ++ [d]).
Proof.
  intros Ht. unfold handleToolEvent. rewrite Ht.
  repeat (case_match; simpl); repeat split.
Qed.

Lemma tracked_Some id p a o :
  tracked id p = Some (a, o) <->
  lastTool (state p) = Some a /\ store p !! a = Some o /\ ToolContent.tool_call_id o = id.
Proof.
  unfold tracked. split.
  - intros H. destruct (lastTool (state p)) as [a'|]; [|discriminate].
    destruct (store p !! a') as [o'|] eqn:Hl; [|discriminate].
    destruct (decide _); [|discriminate]. by simplify_eq.
  - intros (-> & -> & Hid). by rewrite decide_True.
Qed.

(** ** C2: tools of a running step *)

(** C2. After [step running], [tool A], [tool B], [step completed],
    [tool C] with three distinct ids, the transcript is one step entry,
    completed, whose nested tools are A and B, followed by the top-level
    entry C. In general a tool event that is not an update of the tracked
    tool creates an object that is appended to the tools of the most recent
    step entry while that entry is running, and appended to the transcript
    as a top-level entry when that entry is not running or there is none. *)
Theorem C2_tools_nest_under_running_step :
  (forall t s s' A B C,
     StepEventData.status s = running ->
     StepEventData.status s' = completed ->
     ToolContent.tool_call_id A <> ToolContent.tool_call_id B ->
     ToolContent.tool_call_id B <> ToolContent.tool_call_id C ->
     ToolContent.tool_call_id A <> ToolContent.tool_call_id C ->
     let p := handleEvents [Event.step s; Event.tool A; Event.tool B;
                            Event.step s'; Event.tool C] (mount t) in
     messages (state p) =
       [StepEntry (StepContent.mk (StepEventData.id s) (StepEventData.description s)
                     completed (StepEventData.event_id s) [0%nat; 1%nat]);
        ToolEntry 2] /\
     store p = [A; B; C] /\
     top_level_tools p = [2%nat]) /\
  (forall d p,
     tracked (ToolContent.tool_call_id d) p = None ->
     let a := length (store p) in
     let p' := handleEvent (Event.tool d) p in
     store p' !! a = Some d /\
     match getLastStep p with
     | Some (i, c) =>
         messages (state p) !! i = Some (StepEntry c) /\
         (forall j c', (i < j)%nat -> messages (state p) !! j <> Some (StepEntry c')) /\
         match StepContent.status c with
         | running =>
             messages (state p') =
               <[i := StepEntry (StepContent.push_tool a c)]> (messages (state p))
         | _ => messages (state p') = messages (state p) ++ [ToolEntry a]
         end
     | None => messages (state p') = messages (state p) ++ [ToolEntry a]
     end).
Proof.
  split.
  - intros t s s' A B C Hs Hs' HAB HBC _ p.
    unfold handleEvents in p. cbn [foldl] in p.
    set (p1 := handleEvent (Event.step s) (mount t)) in p.
    set (p2 := handleEvent (Event.tool A) p1) in p.
    set (p3 := handleEvent (Event.tool B) p2) in p.
    set (p4 := handleEvent (Event.step s') p3) in p.
    (* step running *)
    destruct (handleStepEvent_view s (mount t)) as (M1 & S1 & L1).
    rewrite Hs in M1. fold p1 in M1, S1, L1. clearbody p1. cbn in M1, S1, L1.
    (* tool A goes under the step *)
    assert (T1 : tracked (ToolContent.tool_call_id A) p1 = None)
      by (unfold tracked; rewrite L1; reflexivity).
    destruct (handleEvent_tool_place A p1 T1) as (S2 & L2 & M2).
    fold p2 in S2, L2, M2. clearbody p2. unfold open_step, getLastStep in M2.
    rewrite M1, S1 in M2. rewrite S1 in S2, L2. cbn in M2, S2, L2. rewrite Hs in M2.
    cbn in M2.
    (* tool B goes under the step *)
    assert (T2 : tracked (ToolContent.tool_call_id B) p2 = None)
      by (unfold tracked; rewrite L2, S2; cbn; by rewrite decide_False).
    destruct (handleEvent_tool_place B p2 T2) as (S3 & L3 & M3).
    fold p3 in S3, L3, M3. clearbody p3. unfold open_step, getLastStep in M3.
    rewrite M2, S2 in M3. rewrite S2 in S3, L3. cbn in M3, S3, L3. rewrite Hs in M3.
    cbn in M3.
    (* step completed *)
    destruct (handleStepEvent_view s' p3) as (M4 & S4 & L4).
    rewrite Hs' in M4. fold p4 in M4, S4, L4. clearbody p4. unfold getLastStep in M4.
    rewrite M3 in M4. rewrite S3 in S4. rewrite L3 in L4. cbn in M4.
    (* tool C is top-level *)
    assert (T4 : tracked (ToolContent.tool_call_id C) p4 = None)
      by (unfold tracked; rewrite L4, S4; cbn; by rewrite decide_False).
    destruct (handleEvent_tool_place C p4 T4) as (S5 & _ & M5).
    fold p in S5, M5. clearbody p. unfold open_step, getLastStep in M5.
    rewrite M4, S4 in M5. rewrite S4 in S5. cbn in M5, S5.
    unfold top_level_tools. rewrite M5, S5. repeat split.
  - intros d p Ht a p'.
    destruct (handleToolEvent_place d p Ht) as (Hst & _ & Hm).
    change (store p') with (store (handleToolEvent d p)).
    change (messages (state p')) with (messages (state (handleToolEvent d p))).
    split.
    { rewrite Hst. unfold a. apply list_lookup_middle. reflexivity. }
    rewrite Hm. unfold open_step.
    destruct (getLastStep p) as [[i c]|] eqn:Hl; [|reflexivity].
    destruct (getLastStep_lookup p i c Hl) as [H1 H2].
    split; [exact H1|]. split; [exact H2|].
    destruct (StepContent.status c); reflexivity.
Qed.

Lemma C2_nesting_witness :
  let p := handleEvents [Event.step s1_running; Event.tool tool_A; Event.tool tool_B;
                         Event.step s1_completed; Event.tool tool_C]
             (mount (fun k => k)) in
  messages (state p) =
    [StepEntry (StepContent.mk (js "s1") (js "first step") completed (js "s-0")
                  [0%nat; 1%nat]);
     ToolEntry 2] /\
  store p = [tool_A; tool_B; tool_C] /\
  top_level_tools p = [2%nat].
Proof.
  apply ((proj1 C2_tools_nest_under_running_step) (fun k => k)
           s1_running s1_completed tool_A tool_B tool_C);
    first [reflexivity | intros H; vm_compute in H; discriminate H].
Defined.

(** ** Runs of events for one tool call *)

Lemma tool_addrs_app ms ms' :
  tool_addrs (ms ++ ms') = tool_addrs ms ++ tool_addrs ms'.
Proof. unfold tool_addrs. by rewrite map_app, concat_app. Qed.

(** Placing a new tool call inserts its address among the transcript's
    tool references, and moves none of the others. *)
Lemma handleToolEvent_place_addrs d p :
  tracked (ToolContent.tool_call_id d) p = None ->
  exists l1 l2,
    tool_addrs (messages (state p)) = l1 ++ l2 /\
    tool_addrs (messages (state (handleToolEvent d p))) =
      l1 ++ [length (store p)] ++ l2.
Proof.
  intros Ht. destruct (handleToolEvent_place d p Ht) as (_ & _ & ->).
  unfold open_step. destruct (getLastStep p) as [[i c]|] eqn:Hl.
  - destruct (getLastStep_lookup p i c Hl) as [Hi _].
    assert (Hsplit : messages (state p) =
              take i (messages (state p)) ++ StepEntry c :: drop (S i) (messages (state p)))
      by (symmetry; by apply take_drop_middle).
    destruct (StepContent.status c) eqn:Hst.
    2: { exists (tool_addrs (take i (messages (state p))) ++ StepContent.tools c),
                (tool_addrs (drop (S i) (messages (state p)))).
         split.
         - rewrite Hsplit at 1. rewrite tool_addrs_app. unfold tool_addrs at 2.
           simpl. fold (tool_addrs (drop (S i) (messages (state p)))).
           by rewrite app_assoc.
         - rewrite insert_take_drop by (by eapply lookup_lt_Some).
           rewrite tool_addrs_app. unfold tool_addrs at 2.
           simpl. fold (tool_addrs (drop (S i) (messages (state p)))).
           by rewrite <- !app_assoc. }
    all: exists (tool_addrs (messages (state p))), [];
      rewrite tool_addrs_app, app_nil_r; split; reflexivity.
  - exists (tool_addrs (messages (state p))), [].
    rewrite tool_addrs_app, app_nil_r. split; reflexivity.
Qed.

Lemma Object_assign_id o d :
  ToolContent.tool_call_id (Object_assign o d) = ToolContent.tool_call_id d.
Proof. reflexivity. Qed.

Lemma merged_id ds : forall d,
  Forall (fun d' => ToolContent.tool_call_id d' = ToolContent.tool_call_id d) ds ->
  ToolContent.tool_call_id (merged d ds) = ToolContent.tool_call_id d.
Proof.
  induction ds as [|d' ds IH]; intros d H; [reflexivity|].
  inversion H as [|? ? Hd Hds]; subst. unfold merged in *. simpl.
  rewrite IH; [exact Hd|]. simpl. rewrite Hd. exact Hds.
Qed.

Lemma merged_content ds : forall d,
  ToolContent.content (merged d ds) =
    match latest_content ds with Some c => Some c | None => ToolContent.content d end.
Proof.
  induction ds as [|d' ds IH]; intros d; [reflexivity|].
  unfold merged in *. simpl. rewrite IH. simpl.
  destruct (latest_content ds); [reflexivity|].
  destruct (ToolContent.content d'); reflexivity.
Qed.

(** Every key but [content] is the last event's. *)
Lemma merged_last_fields ds : forall d,
  let o := merged d ds in
  let final := default d (last ds) in
  ToolContent.name o = ToolContent.name final /\
  ToolContent.function o = ToolContent.function final /\
  ToolContent.args o = ToolContent.args final /\
  ToolContent.status o = ToolContent.status final /\
  ToolContent.timestamp o = ToolContent.timestamp final /\
  ToolContent.event_id o = ToolContent.event_id final.
Proof.
  induction ds as [|d' ds IH]; intros d; [repeat split|].
  specialize (IH (Object_assign d d')). cbv zeta in *.
  unfold merged in *. simpl foldl.
  destruct ds as [|d'' ds]; [repeat split|].
  rewrite last_cons_cons.
  destruct (last (d'' :: ds)) eqn:Hl; [exact IH|].
  by apply last_None in Hl.
Qed.

Lemma default_last_cons (d d' : ToolEventData) ds :
  default d (last (d' :: ds)) = default d' (last ds).
Proof. rewrite last_cons. destruct (last ds); reflexivity. Qed.

Lemma latest_content_final ds : forall d,
  is_Some (ToolContent.content (default d (last ds))) ->
  match latest_content ds with Some c => Some c | None => ToolContent.content d end
  = ToolContent.content (default d (last ds)).
Proof.
  induction ds as [|d' ds IH]; intros d Hc; [reflexivity|].
  rewrite default_last_cons in Hc |- *. specialize (IH d' Hc).
  simpl. rewrite IH. destruct Hc as [c ->]. reflexivity.
Qed.

Lemma final_id ds d :
  Forall (fun d' => ToolContent.tool_call_id d' = ToolContent.tool_call_id d) ds ->
  ToolContent.tool_call_id (default d (last ds)) = ToolContent.tool_call_id d.
Proof.
  intros Hid. destruct (last ds) as [x|] eqn:Hl; [|reflexivity]. simpl.
  apply last_Some_elem_of in Hl. rewrite Forall_forall in Hid. by apply Hid.
Qed.

Lemma merged_final_with_content ds d :
  Forall (fun d' => ToolContent.tool_call_id d' = ToolContent.tool_call_id d) ds ->
  is_Some (ToolContent.content (default d (last ds))) ->
  merged d ds = default d (last ds).
Proof.
  intros Hid Hc.
  pose proof (merged_last_fields ds d) as H. cbv zeta in H.
  destruct H as (H1 & H2 & H3 & H4 & H5 & H6).
  pose proof (merged_id ds d Hid) as H0.
  pose proof (final_id ds d Hid) as Hfid.
  pose proof (merged_content ds d) as Hm.
  rewrite (latest_content_final ds d Hc) in Hm.
  destruct (merged d ds), (default d (last ds)); simpl in *. congruence.
Qed.

(** Once a tool call is tracked, every further event with its id is merged
    into the tracked object; the transcript and every other object of the
    store stay as they are. *)
Lemma handleToolEvents_merge ds : forall p a o,
  lastTool (state p) = Some a ->
  store p !! a = Some o ->
  Forall (fun d => ToolContent.tool_call_id d = ToolContent.tool_call_id o) ds ->
  let p' := handleToolEvents ds p in
  messages (state p') = messages (state p) /\
  lastTool (state p') = Some a /\
  store p' !! a = Some (merged o ds) /\
  (length (store p) <= length (store p'))%nat /\
  (forall b, (b < length (store p))%nat -> b <> a -> store p' !! b = store p !! b).
Proof.
  induction ds as [|d ds IH]; intros p a o Hlast Ha Hids p'.
  { subst p'. repeat split; auto. }
  inversion Hids as [|? ? Hd Hds]; subst.
  assert (Ht : tracked (ToolContent.tool_call_id d) p = Some (a, o))
    by (apply tracked_Some; auto).
  destruct (handleToolEvent_merge d p a o Ht) as (Hm & Hl & Hs).
  set (p1 := handleEvent (Event.tool d) p).
  assert (Hm1 : messages (state p1) = messages (state p)) by exact Hm.
  assert (Hl1 : lastTool (state p1) = Some a) by (rewrite <- Hlast; exact Hl).
  assert (Hs1 : store p1 = <[a := Object_assign o d]> (store p ++ [d])) by exact Hs.
  assert (Halt : (a < length (store p))%nat) by (by eapply lookup_lt_Some).
  assert (Ha1 : store p1 !! a = Some (Object_assign o d)).
  { rewrite Hs1. apply list_lookup_insert_eq. rewrite length_app. lia. }
  assert (Hids1 : Forall (fun d' => ToolContent.tool_call_id d'
                            = ToolContent.tool_call_id (Object_assign o d)) ds).
  { rewrite Object_assign_id, Hd. exact Hds. }
  destruct (IH p1 a _ Hl1 Ha1 Hids1) as (G1 & G2 & G3 & G4 & G5).
  assert (Hlen : length (store p1) = S (length (store p)))
    by (rewrite Hs1, length_insert, length_app; simpl; lia).
  subst p'. change (handleToolEvents (d :: ds) p) with (handleToolEvents ds p1).
  split; [congruence|]. split; [exact G2|]. split; [exact G3|].
  split; [lia|]. intros b Hb Hne. rewrite G5 by lia.
  rewrite Hs1, list_lookup_insert_ne by congruence. by apply lookup_app_l.
Qed.

Lemma omap_lookup_agree (s s' : list ToolContent.t) (l : list addr) :
  (forall b, b ∈ l -> s' !! b = s !! b) ->
  omap (fun a => s' !! a) l = omap (fun a => s !! a) l.
Proof.
  induction l as [|b l IH]; intros H; [reflexivity|].
  assert (Hl : omap (fun a => s' !! a) l = omap (fun a => s !! a) l)
    by (apply IH; intros b' Hb'; apply H; by right).
  simpl. rewrite H by left. destruct (s !! b); [f_equal|]; exact Hl.
Qed.

(** ** Well-formed pages *)

(** Well-formedness only looks at the tool references of the transcript,
    the store and the tracked tool. *)
Lemma well_formed_view p q :
  tool_addrs (messages (state q)) = tool_addrs (messages (state p)) ->
  store q = store p ->
  lastTool (state q) = lastTool (state p) ->
  well_formed p -> well_formed q.
Proof.
  unfold well_formed, refs_in_store, lastTool_listed. intros -> -> ->. auto.
Qed.

Ltac same_view := eapply well_formed_view; [| | |eassumption]; reflexivity.

Lemma tool_addrs_snoc ms m :
  tool_addrs (ms ++ [m]) = tool_addrs ms ++ entry_tools m.
Proof. rewrite tool_addrs_app. unfold tool_addrs at 2. simpl. by rewrite app_nil_r. Qed.

Lemma tool_addrs_insert ms i m m' :
  ms !! i = Some m ->
  entry_tools m' = entry_tools m ->
  tool_addrs (<[i := m']> ms) = tool_addrs ms.
Proof.
  intros Hi He. rewrite insert_take_drop by (by eapply lookup_lt_Some).
  rewrite <- (take_drop_middle ms i m Hi) at 3.
  rewrite !tool_addrs_app. f_equal. unfold tool_addrs. simpl. by rewrite He.
Qed.

Lemma well_formed_push m p :
  entry_tools m = [] -> well_formed p -> well_formed (push m p).
Proof.
  intros Hm. apply well_formed_view; try reflexivity.
  change (messages (state (push m p))) with (messages (state p) ++ [m]).
  by rewrite tool_addrs_snoc, Hm, app_nil_r.
Qed.

Lemma well_formed_mount t : well_formed (mount t).
Proof. split; [apply Forall_nil_2|]. intros a H. discriminate H. Qed.

Lemma well_formed_handleToolEvent d p :
  well_formed p -> well_formed (handleToolEvent d p).
Proof.
  intros [Hrefs Hlast].
  destruct (tracked (ToolContent.tool_call_id d) p) as [[a o]|] eqn:Ht.
  - destruct (handleToolEvent_merge d p a o Ht) as (Hm & Hl & Hs).
    unfold well_formed, refs_in_store, lastTool_listed.
    rewrite Hm, Hl, Hs, length_insert, length_app. split; [|exact Hlast].
    eapply Forall_impl; [exact Hrefs|]. simpl. intros; lia.
  - destruct (handleToolEvent_place d p Ht) as (Hs & Hl & _).
    destruct (handleToolEvent_place_addrs d p Ht) as (l1 & l2 & Hold & Hnew).
    unfold well_formed, refs_in_store, lastTool_listed.
    rewrite Hnew, Hl, Hs, length_app. unfold refs_in_store in Hrefs.
    rewrite Hold in Hrefs. apply Forall_app in Hrefs as [H1 H2]. split.
    + apply Forall_app. split; [|apply Forall_cons; split; [simpl; lia|]];
        (eapply Forall_impl; [eassumption|]; simpl; intros; lia).
    + intros a [= <-]. apply elem_of_app. right. by left.
Qed.

(** The reducer keeps pages well-formed. *)
Lemma well_formed_handleEvent e p :
  well_formed p -> well_formed (handleEvent e p).
Proof.
  intros Hwf. destruct e as [d|d|d|i|i|d|d|d]; try same_view.
  - apply (well_formed_view (handleMessageEvent d p)); try reflexivity.
    unfold handleMessageEvent.
    destruct (has_attachments d); repeat apply well_formed_push; auto.
  - apply (well_formed_view (handleToolEvent d p)); try reflexivity.
    by apply well_formed_handleToolEvent.
  - destruct (handleStepEvent_view d p) as (Hm & Hs & Hl).
    eapply well_formed_view; [|exact Hs|exact Hl|exact Hwf].
    rewrite Hm. destruct (StepEventData.status d); try reflexivity.
    + by rewrite tool_addrs_snoc, app_nil_r.
    + destruct (getLastStep p) as [[i c]|] eqn:Hstep; [|reflexivity].
      apply getLastStep_lookup in Hstep as [Hi _].
      by apply (tool_addrs_insert _ _ (StepEntry c)).
  - apply (well_formed_view (handleErrorEvent d p)); try reflexivity.
    unfold handleErrorEvent. apply well_formed_push; [reflexivity|]. same_view.
Qed.

Lemma well_formed_handleEvents es : forall p,
  well_formed p -> well_formed (handleEvents es p).
Proof.
  induction es as [|e es IH]; intros p H; [exact H|].
  rewrite handleEvents_cons. by apply IH, well_formed_handleEvent.
Qed.

Lemma well_formed_chat now now_api r message files p :
  well_formed p -> well_formed (chat now now_api r message files p).
Proof.
  intros Hwf. unfold chat, chat_send.
  destruct (current_session p) as [sid|]; [|exact Hwf].
  assert (Hprep : well_formed (chat_prepare now message files p)).
  { unfold chat_prepare.
    apply (well_formed_view
      (match files with
       | [] => fun q => q
       | _ :: _ => push (AttachmentsEntry (UserFiles files))
       end
       ((if truthy (trim message)
         then push (MessageEntry user (TextContent message (agentApi.unix_seconds now)))
         else fun q => q) p))).
    - destruct (cancelCurrentChat (state p)), (truthy (trim message)), files; reflexivity.
    - destruct (cancelCurrentChat (state p)), (truthy (trim message)), files; reflexivity.
    - destruct (cancelCurrentChat (state p)), (truthy (trim message)), files; reflexivity.
    - destruct (truthy (trim message)), files;
        repeat (apply well_formed_push; [reflexivity|]); exact Hwf. }
  destruct r; same_view.
Qed.

Lemma well_formed_resetState t p : well_formed (resetState t p).
Proof. split; [apply Forall_nil_2|]. intros a H. discriminate H. Qed.

Lemma well_formed_restoreSession t now now_api fetched r p :
  well_formed p -> well_formed (restoreSession t now now_api fetched r p).
Proof.
  intros Hwf. unfold restoreSession.
  destruct (current_session p) as [sid|]; [|same_view].
  destruct fetched as [session|err]; [|same_view].
  assert (Hrep : well_formed (replay (session_events session) (emit (GetSession sid) p))).
  { unfold replay.
    apply (well_formed_view
             (handleEvents (session_events session)
                (set_realTime false (emit (GetSession sid) p)))); try reflexivity.
    apply well_formed_handleEvents. same_view. }
  apply (well_formed_view
           (if is_active (session_status session)
            then chat now now_api r [] []
                   (replay (session_events session) (emit (GetSession sid) p))
            else replay (session_events session) (emit (GetSession sid) p)));
    try reflexivity.
  destruct (is_active _); [by apply well_formed_chat|exact Hrep].
Qed.

(** Every page the component reaches is well-formed. *)
Lemma reachable_well_formed t p : reachable t p -> well_formed p.
Proof.
  induction 1 as [|a p Hreach IH]; [apply well_formed_mount|].
  destruct a; simpl.
  - destruct cb; simpl.
    + same_view.
    + by apply well_formed_handleEvent.
    + unfold onClose, clear_cancelCurrentChat. case_match; same_view.
    + unfold onError, clear_cancelCurrentChat. case_match; same_view.
  - unfold onMounted. destruct route as [sid|]; [|same_view].
    destruct (truthy sid); [|same_view].
    assert (Hp : well_formed (set_sessionId (Some sid) (emit HideFilePanel p)))
      by same_view.
    destruct message as [m|]; [destruct (truthy m)|];
      auto using well_formed_chat, well_formed_restoreSession.
  - by apply well_formed_chat.
  - by apply well_formed_restoreSession.
  - unfold onBeforeRouteUpdate.
    set (q := resetState t _).
    assert (Hq : well_formed q) by apply well_formed_resetState.
    destruct to as [sid|]; [|exact Hq]. destruct (truthy sid); [|exact Hq].
    apply well_formed_restoreSession.
    split; [apply Forall_nil_2|]. intros a H. discriminate H.
  - unfold onUnmounted. case_match; same_view.
  - unfold handleToolClick. repeat case_match; same_view.
  - unfold jumpToRealTime. repeat case_match; same_view.
  - same_view.
  - same_view.
  - unfold handleStop. case_match; same_view.
Qed.

(** On a well-formed page an id without an entry is not the tracked one. *)
Lemma tracked_None_without_entry id p :
  well_formed p -> entries_for id p = [] -> tracked id p = None.
Proof.
  intros [_ Hlast] Hnone.
  destruct (tracked id p) as [[a o]|] eqn:Ht; [|reflexivity].
  apply tracked_Some in Ht as (Hl & Ha & Hid).
  assert (Hin : o ∈ entries_for id p).
  { unfold entries_for, tool_entries. apply list_elem_of_filter. split; [exact Hid|].
    apply list_elem_of_omap. exists a. split; [by apply Hlast|exact Ha]. }
  rewrite Hnone in Hin. by apply not_elem_of_nil in Hin.
Qed.

(** ** C10: [done] and [wait] *)

(** Of the channel's deliveries, the stopping ones turn the indicator off
    and every other one leaves it on. *)
Lemma deliver_loading cb p :
  isLoading (state p) = true ->
  isLoading (state (deliver cb p)) = negb (stops_loading cb).
Proof.
  intros H. destruct cb as [|e| |err]; simpl.
  - reflexivity.
  - destruct e as [d|d|d|i|i|d|d|d]; simpl; try exact H.
    + unfold handleMessageEvent. destruct (has_attachments d); exact H.
    + unfold handleToolEvent. repeat (case_match; simpl; try exact H).
    + unfold handleStepEvent.
      destruct (StepEventData.status d); simpl; try exact H; try reflexivity.
      destruct (getLastStep p) as [[? ?]|]; exact H.
    + reflexivity.
  - unfold onClose, clear_cancelCurrentChat. case_match; reflexivity.
  - unfold onError, clear_cancelCurrentChat. case_match; reflexivity.
Qed.

Lemma handleEvents_loading es : forall p,
  isLoading (state p) = true ->
  existsb (fun e => stops_loading (CbMessage e)) es = false ->
  isLoading (state (handleEvents es p)) = true.
Proof.
  induction es as [|e es IH]; intros p H Hes; [exact H|].
  cbn [existsb] in Hes. apply orb_false_iff in Hes as [He Hes].
  rewrite handleEvents_cons. apply IH; [|exact Hes].
  change (handleEvent e p) with (deliver (CbMessage e) p).
  rewrite deliver_loading by exact H. by rewrite He.
Qed.

Lemma chat_loading now now_api r message files p :
  isLoading (state p) = true ->
  rejected r = false ->
  isLoading (state (chat now now_api r message files p)) = true.
Proof.
  intros H Hr. unfold chat, chat_send.
  destruct (current_session p); [|exact H].
  destruct r; [reflexivity|discriminate].
Qed.

Lemma restoreSession_loading t now now_api fetched r p :
  isLoading (state p) = true ->
  rejected r = false ->
  replays_stop fetched = false ->
  isLoading (state (restoreSession t now now_api fetched r p)) = true.
Proof.
  intros H Hr Hf. unfold restoreSession.
  destruct (current_session p) as [sid|]; [|exact H].
  destruct fetched as [session|err]; [|exact H].
  assert (Hrep : isLoading (state (replay (session_events session)
                                     (emit (GetSession sid) p))) = true).
  { unfold replay.
    change (isLoading (state (handleEvents (session_events session)
                                (set_realTime false (emit (GetSession sid) p)))) = true).
    apply handleEvents_loading; [exact H|exact Hf]. }
  destruct (is_active (session_status session)); [|exact Hrep].
  change (isLoading (state (chat now now_api r [] []
            (replay (session_events session) (emit (GetSession sid) p)))) = true).
  by apply chat_loading.
Qed.

(** C10, as the code has it. Folding [done] or [wait] changes nothing but
    the resume cursor; in particular the loading indicator keeps its value.
    Of the channel's deliveries the indicator is cleared exactly by the
    close and error callbacks, a [step] event with status failed and an
    [error] event. Of everything else the controller does, only the [catch]
    block of a rejected chat request, the replay of such an event by
    [restoreSession] and the state reset of a route change can clear it. *)
Theorem C10_done_wait_only_move_cursor :
  (forall i p,
     same_but_cursor p (handleEvent (Event.done i) p) /\
     lastEventId (state (handleEvent (Event.done i) p)) = Some i) /\
  (forall i p,
     same_but_cursor p (handleEvent (Event.wait i) p) /\
     lastEventId (state (handleEvent (Event.wait i) p)) = Some i) /\
  (forall cb p,
     isLoading (state p) = true ->
     isLoading (state (deliver cb p)) = negb (stops_loading cb)) /\
  (forall t a p,
     isLoading (state p) = true ->
     may_stop_loading a = false ->
     isLoading (state (perform t a p)) = true) /\
  (forall i,
     may_stop_loading (Deliver (CbMessage (Event.done i))) = false /\
     may_stop_loading (Deliver (CbMessage (Event.wait i))) = false).
Proof.
  split; [|split; [|split; [|split]]].
  - intros i p. split; [|reflexivity]. unfold same_but_cursor. repeat split.
  - intros i p. split; [|reflexivity]. unfold same_but_cursor. repeat split.
  - exact deliver_loading.
  - intros t a p H Ha. destruct a; simpl in Ha |- *.
    + rewrite deliver_loading by exact H. by rewrite Ha.
    + apply orb_false_iff in Ha as [Hr Hf]. unfold onMounted.
      destruct route as [sid|]; [|exact H]. destruct (truthy sid); [|exact H].
      destruct message as [m|]; [destruct (truthy m)|];
        auto using chat_loading, restoreSession_loading.
    + by apply chat_loading.
    + apply orb_false_iff in Ha as [Hr Hf]. by apply restoreSession_loading.
    + discriminate Ha.
    + unfold onUnmounted. case_match; exact H.
    + unfold handleToolClick. repeat case_match; exact H.
    + unfold jumpToRealTime. repeat case_match; exact H.
    + exact H.
    + exact H.
    + unfold handleStop. case_match; exact H.
  - intros i. split; reflexivity.
Qed.

Lemma C10_done_wait_witness :
  isLoading (state (perform (fun k => k) (Deliver (CbMessage (Event.done (js "9-0"))))
                      thinking_page)) = true /\
  isLoading (state (deliver (CbMessage (Event.wait (js "9-0"))) thinking_page)) = true.
Proof.
  split.
  - exact ((proj1 (proj2 (proj2 (proj2 C10_done_wait_only_move_cursor))))
             (fun k => k) (Deliver (CbMessage (Event.done (js "9-0"))))
             thinking_page eq_refl eq_refl).
  - exact ((proj1 (proj2 (proj2 C10_done_wait_only_move_cursor)))
             (CbMessage (Event.wait (js "9-0"))) thinking_page eq_refl).
Defined.

(** C10 as worded fails in its list of what clears the indicator: the
    [catch] block of [chat] clears it when the request is rejected, and so
    does a route change, and neither is a delivery of the channel. *)
Lemma C10_cleared_outside_the_channel :
  isLoading (state thinking_page) = true /\
  isLoading (state (chat a_moment a_moment (Rejected (JStr (js "401")))
                      (js "hello") [] thinking_page)) = false /\
  isLoading (state (perform (fun k => k)
                      (RouteUpdate a_moment a_moment None
                         (Rejected JNull) (Rejected JNull)) thinking_page)) = false /\
  (forall cb, RouteUpdate a_moment a_moment None (Rejected JNull) (Rejected JNull)
              <> Deliver cb).
Proof. repeat split; discriminate. Qed.

(** ** C1: one entry per tool call *)

(** C1, as the code has it. Take a page whose transcript has no entry for
    an id and fold one or more tool events that all carry that id. Then the
    transcript has exactly one tool entry for the id, top-level or nested.
    Its keys other than [content] are those of the last event; its
    [content] is that of the latest event that has the key, so the entry is
    the last event whenever that event has a [content]. An event whose id is
    that of the tracked tool is assigned onto the tracked object and appends
    nothing. *)
Theorem C1_one_entry_per_tool_call :
  (forall d ds p,
     well_formed p ->
     entries_for (ToolContent.tool_call_id d) p = [] ->
     Forall (fun d' => ToolContent.tool_call_id d' = ToolContent.tool_call_id d) ds ->
     let p' := handleToolEvents (d :: ds) p in
     let final := default d (last ds) in
     exists o,
       entries_for (ToolContent.tool_call_id d) p' = [o] /\
       o = merged d ds /\
       ToolContent.tool_call_id o = ToolContent.tool_call_id final /\
       ToolContent.name o = ToolContent.name final /\
       ToolContent.function o = ToolContent.function final /\
       ToolContent.args o = ToolContent.args final /\
       ToolContent.status o = ToolContent.status final /\
       ToolContent.timestamp o = ToolContent.timestamp final /\
       ToolContent.event_id o = ToolContent.event_id final /\
       ToolContent.content o = latest_content (d :: ds) /\
       (is_Some (ToolContent.content final) -> o = final)) /\
  (forall d p a o,
     tracked (ToolContent.tool_call_id d) p = Some (a, o) ->
     let p' := handleEvent (Event.tool d) p in
     messages (state p') = messages (state p) /\
     lastTool (state p') = Some a /\
     store p' !! a = Some (Object_assign o d)).
Proof.
  split.
  - intros d ds p Hwf Hnone Hids p' final.
    pose proof (tracked_None_without_entry _ p Hwf Hnone) as Ht.
    destruct Hwf as [Hrefs _].
    exists (merged d ds).
    pose proof (merged_last_fields ds d) as Hf. cbv zeta in Hf.
    destruct Hf as (F1 & F2 & F3 & F4 & F5 & F6).
    pose proof (final_id ds d Hids) as Hfid.
    split; [|split; [reflexivity|]].
    2: { unfold final. rewrite Hfid, (merged_id ds d Hids).
         repeat split; try assumption.
         - rewrite merged_content. simpl. reflexivity.
         - by apply merged_final_with_content. }
    (* the first event places the tool call *)
    set (a := length (store p)).
    set (p1 := handleEvent (Event.tool d) p).
    destruct (handleToolEvent_place d p Ht) as (Hs1 & Hl1 & _).
    destruct (handleToolEvent_place_addrs d p Ht) as (l1 & l2 & Hold & Hnew).
    assert (Ha1 : store p1 !! a = Some d).
    { change (store p1) with (store (handleToolEvent d p)).
      rewrite Hs1. by apply list_lookup_middle. }
    (* the others are merged into it *)
    destruct (handleToolEvents_merge ds p1 a d Hl1 Ha1 Hids) as (G1 & _ & G3 & _ & G5).
    change (handleToolEvents ds p1) with p' in G1, G3, G5.
    assert (Hlen1 : length (store p1) = S a).
    { change (store p1) with (store (handleToolEvent d p)).
      rewrite Hs1, length_app. simpl. unfold a. lia. }
    assert (Hkeep : forall b, b ∈ l1 ++ l2 -> store p' !! b = store p !! b).
    { intros b Hb. unfold refs_in_store in Hrefs. rewrite Hold in Hrefs.
      rewrite Forall_forall in Hrefs. specialize (Hrefs b Hb). fold a in Hrefs.
      rewrite G5 by lia.
      change (store p1) with (store (handleToolEvent d p)).
      rewrite Hs1. by apply lookup_app_l. }
    unfold entries_for, tool_entries in *.
    rewrite G1. change (messages (state p1)) with (messages (state (handleToolEvent d p))).
    rewrite Hnew. rewrite Hold in Hnone.
    rewrite omap_app in Hnone. rewrite filter_app in Hnone.
    apply app_eq_nil in Hnone as [Hn1 Hn2].
    rewrite !omap_app, !filter_app. fold a.
    rewrite (omap_lookup_agree (store p) (store p') l1)
      by (intros b Hb; apply Hkeep, elem_of_app; by left).
    rewrite (omap_lookup_agree (store p) (store p') l2)
      by (intros b Hb; apply Hkeep, elem_of_app; by right).
    rewrite Hn1, Hn2. simpl. rewrite G3. simpl.
    rewrite filter_cons_True by (by apply merged_id). reflexivity.
  - intros d p a o Ht p'.
    destruct (handleToolEvent_merge d p a o Ht) as (Hm & Hl & Hs).
    apply tracked_Some in Ht as (Hlast & Hlook & _).
    split; [exact Hm|]. split; [rewrite <- Hlast; exact Hl|].
    change (store p') with (store (handleToolEvent d p)). rewrite Hs.
    apply list_lookup_insert_eq. rewrite length_app.
    apply lookup_lt_Some in Hlook. lia.
Qed.

Lemma C1_nested_witness :
  exists o,
    entries_for (js "t1") (handleToolEvents [t1_calling; t1_called_ok] stepping_page) = [o] /\
    o = t1_called_ok.
Proof.
  destruct ((proj1 C1_one_entry_per_tool_call) t1_calling [t1_called_ok] stepping_page)
    as (o & He & _ & _ & _ & _ & _ & _ & _ & _ & _ & Hfinal).
  - split; [apply Forall_nil_2|]. intros a H. discriminate H.
  - reflexivity.
  - apply Forall_cons_2; [reflexivity|apply Forall_nil_2].
  - exists o. split; [exact He|]. apply Hfinal. eexists. reflexivity.
Defined.

(** C1 as worded fails: when the result arrives first and an event without
    a [content] key follows, the single entry keeps the earlier result, so
    its fields are not those of the last event. *)
Lemma C1_entry_keeps_earlier_content :
  let p' := handleToolEvents [t1_called_ok; t1_calling] (mount (fun k => k)) in
  exists o,
    entries_for (js "t1") p' = [o] /\
    ToolContent.content o = Some (JStr (js "ok")) /\
    ToolContent.content t1_calling = None /\
    o <> t1_calling.
Proof.
  eexists. split; [reflexivity|]. split; [reflexivity|]. split; [reflexivity|].
  intros H. vm_compute in H. discriminate H.
Qed.

(** * Further properties *)

(** ** [utils/dom.ts] *)

Section DocumentFacts.

Context (querySelector : jsstring -> option dom.Element).
Context (matches : dom.Element -> jsstring -> bool).

Lemma closest_spec e selector r :
  dom.closest matches e selector = Some r ->
  matches r selector = true /\
  exists skipped rest,
    e :: dom.ancestors e = skipped ++ r :: rest /\
    forallb (fun x => negb (matches x selector)) skipped = true.
Proof.
  induction e as [n|n p IH]; simpl; intros H.
  - destruct (matches (dom.root n) selector) eqn:Hm; [|discriminate].
    injection H as <-. split; [exact Hm|]. exists [], []. split; reflexivity.
  - destruct (matches (dom.child n p) selector) eqn:Hm.
    + injection H as <-. split; [exact Hm|]. exists [], (p :: dom.ancestors p).
      split; reflexivity.
    + destruct (IH H) as (Hr & skipped & rest & Heq & Hsk). split; [exact Hr|].
      exists (dom.child n p :: skipped), rest. split.
      * simpl. destruct p; simpl in *; by rewrite Heq.
      * simpl. by rewrite Hm, Hsk.
Qed.

Lemma closest_None e selector :
  dom.closest matches e selector = None ->
  forallb (fun x => negb (matches x selector)) (e :: dom.ancestors e) = true.
Proof.
  induction e as [n|n p IH]; simpl; intros H.
  - destruct (matches (dom.root n) selector); [discriminate|reflexivity].
  - destruct (matches (dom.child n p) selector); [discriminate|]. simpl.
    specialize (IH H). destruct p; exact IH.
Qed.

(** X22. [getParentElement] returns [null] exactly when it has warned: a
    [null] result comes with one [console.warn], an element with none. *)
Theorem getParentElement_null_iff_warned selector parentSelector :
  let '(result, warnings) :=
    dom.getParentElement querySelector matches selector parentSelector in
  match result with
  | None => length warnings = 1%nat
  | Some _ => warnings = []
  end.
Proof.
  unfold dom.getParentElement.
  destruct (match selector with
            | dom.BySelector s => querySelector s
            | dom.ByElement e => e
            end) as [e|]; [|reflexivity].
  destruct (truthy (default [] parentSelector)).
  - destruct (dom.closest matches e (default [] parentSelector)); reflexivity.
  - destruct (dom.parentElement e); reflexivity.
Qed.

(** X23. With a non-empty parent selector, [getParentElement] of an element
    returns the nearest element on the chain from the element itself
    upwards that matches the selector: the element itself when it matches,
    so the result need not be a proper parent; and it returns [null] only
    when nothing on that chain matches. *)
Theorem getParentElement_with_selector e parentSelector :
  truthy parentSelector = true ->
  let result :=
    fst (dom.getParentElement querySelector matches (dom.ByElement (Some e))
           (Some parentSelector)) in
  (matches e parentSelector = true -> result = Some e) /\
  (forall r, result = Some r ->
     matches r parentSelector = true /\
     exists skipped rest,
       e :: dom.ancestors e = skipped ++ r :: rest /\
       forallb (fun x => negb (matches x parentSelector)) skipped = true) /\
  (result = None ->
     forallb (fun x => negb (matches x parentSelector)) (e :: dom.ancestors e) = true).
Proof.
  intros Ht result. unfold result, dom.getParentElement. simpl. rewrite Ht.
  split; [|split].
  - intros Hm. destruct e; simpl; rewrite Hm; reflexivity.
  - intros r Hr.
    destruct (dom.closest matches e parentSelector) as [r'|] eqn:Hc; [|discriminate].
    simpl in Hr. injection Hr as ->. by apply closest_spec.
  - intros Hr.
    destruct (dom.closest matches e parentSelector) as [r'|] eqn:Hc; [discriminate|].
    by apply closest_None.
Qed.

(** X24. Without a parent selector, and also with the empty string as
    parent selector, [getParentElement] returns the immediate parent, and
    [null] for an element that has none; the selector that matches
    everything is never consulted. *)
Theorem getParentElement_immediate_parent e parentSelector :
  truthy (default [] parentSelector) = false ->
  fst (dom.getParentElement querySelector matches (dom.ByElement (Some e)) parentSelector)
  = dom.parentElement e /\
  fst (dom.getParentElement querySelector (fun _ _ => true) (dom.ByElement (Some e))
         parentSelector)
  = dom.parentElement e.
Proof.
  intros Ht. unfold dom.getParentElement. simpl. rewrite Ht.
  destruct (dom.parentElement e); split; reflexivity.
Qed.

End DocumentFacts.

Lemma getParentElement_with_selector_witness :
  fst (dom.getParentElement (fun _ => None) matches_card (dom.ByElement (Some a_button))
         (Some (js ".card")))
  = Some a_card.
Proof.
  destruct (getParentElement_with_selector (fun _ => None) matches_card a_button
              (js ".card") eq_refl) as (_ & H & _).
  destruct (dom.getParentElement (fun _ => None) matches_card
              (dom.ByElement (Some a_button)) (Some (js ".card"))) as [[r|] w] eqn:He;
    vm_compute in He; [|discriminate He].
  injection He as <- _. reflexivity.
Defined.

Lemma getParentElement_immediate_parent_witness :
  fst (dom.getParentElement (fun _ => None) matches_card (dom.ByElement (Some a_button))
         (Some []))
  = Some a_row.
Proof.
  exact (proj1 (getParentElement_immediate_parent (fun _ => None) matches_card
                  a_button (Some []) eq_refl)).
Defined.

(** ** [api/agent.ts] *)

Ltac expand_js_in H :=
  repeat match type of H with
         | context [js ?s] =>
             let v := eval vm_compute in (js s) in change (js s) with v in H
         end.

Lemma split_at_slash (s1 s2 t1 t2 : jsstring) :
  s1 ++ slash :: t1 = s2 ++ slash :: t2 ->
  slash ∉ s1 -> slash ∉ s2 ->
  s1 = s2 /\ t1 = t2.
Proof.
  revert s2. induction s1 as [|c s1 IH]; intros [|c2 s2] H H1 H2; simpl in H.
  - injection H as ->. auto.
  - injection H as <- _. exfalso. apply H2. by left.
  - injection H as -> _. exfalso. apply H1. by left.
  - injection H as -> H. destruct (IH s2 H) as [-> ->]; auto.
    + intros Hin. apply H1. by right.
    + intros Hin. apply H2. by right.
Qed.

Lemma no_slash_suffix (s1 s2 t : jsstring) :
  s1 = s2 ++ slash :: t -> slash ∉ s1 -> False.
Proof. intros -> H. apply H. apply elem_of_app. right. by left. Qed.

(** X19. For session ids without a slash, the verb and path of a call
    determine the operation and the session: no two session calls of
    [agent.ts] share an endpoint. *)
Theorem endpoints_distinct c1 c2 (s1 s2 : jsstring) :
  slash ∉ s1 -> slash ∉ s2 ->
  endpoint c1 s1 = endpoint c2 s2 ->
  c1 = c2 /\ s1 = s2.
Proof.
  intros H1 H2 H.
  destruct c1, c2; cbn in H; injection H as H; try discriminate;
    try (apply app_inv_head in H);
    try (apply app_inv_head in H; subst; auto; fail);
    expand_js_in H;
    try (exfalso; apply (no_slash_suffix _ _ _ H H1); fail);
    try (exfalso; symmetry in H; apply (no_slash_suffix _ _ _ H H2); fail);
    try (destruct (split_at_slash _ _ _ _ H H1 H2) as [-> Ht]; first [discriminate Ht|auto]).
  all: by subst.
Qed.

Lemma endpoints_distinct_witness :
  CallStopSession = CallStopSession /\ js "abc" = js "abc".
Proof.
  apply (endpoints_distinct CallStopSession CallStopSession (js "abc") (js "abc")).
  - intros H. apply list_elem_of_In in H. vm_compute in H. intuition discriminate.
  - intros H. apply list_elem_of_In in H. vm_compute in H. intuition discriminate.
  - reflexivity.
Defined.

(** X20. The session id is put into the path as it is: a session id that
    ends in "/files" makes [getSession] issue the request of
    [getSessionFiles] for the id before it, and one that ends in "/stop"
    sends a call that names the session to the stop endpoint's path. *)
Theorem session_id_is_not_escaped (sessionId : jsstring) :
  agent.getSession (sessionId ++ js "/files") = agent.getSessionFiles sessionId /\
  agent.path (agent.deleteSession (sessionId ++ js "/stop"))
  = agent.path (agent.stopSession sessionId).
Proof.
  unfold agent.getSession, agent.getSessionFiles, agent.deleteSession, agent.stopSession.
  simpl. split; reflexivity.
Qed.

Lemma strip_prefix_Some prefix : forall s rest,
  agent.strip_prefix prefix s = Some rest <-> s = prefix ++ rest.
Proof.
  induction prefix as [|c prefix IH]; intros s rest; simpl.
  - split; [intros [= ->]|intros ->]; reflexivity.
  - destruct s as [|d s]; [split; discriminate|].
    destruct (N.eqb_spec c d) as [->|Hne].
    + rewrite IH. split; [intros ->; reflexivity|intros [= ->]; reflexivity].
    + split; [discriminate|]. intros [= -> _]. by destruct Hne.
Qed.

(** X21. The VNC URL is the host with a leading "http" turned into "ws",
    followed by the signed path: "https" hosts give "wss" URLs. A host
    that does not begin with lower-case "http" is used as it is. The
    converted base never begins with "http", and converting it again
    changes nothing. *)
Theorem getVNCUrl_scheme :
  (forall rest signed_url,
     agent.getVNCUrl (js "http" ++ rest) signed_url = js "ws" ++ rest ++ signed_url) /\
  (forall rest signed_url,
     agent.getVNCUrl (js "https://" ++ rest) signed_url = js "wss://" ++ rest ++ signed_url) /\
  (forall host signed_url,
     (forall rest, host <> js "http" ++ rest) ->
     agent.getVNCUrl host signed_url = host ++ signed_url) /\
  (forall host rest, agent.wsBaseUrl host <> js "http" ++ rest) /\
  (forall host, agent.wsBaseUrl (agent.wsBaseUrl host) = agent.wsBaseUrl host).
Proof.
  assert (Hhttp : forall rest, agent.wsBaseUrl (js "http" ++ rest) = js "ws" ++ rest).
  { intros rest. unfold agent.wsBaseUrl.
    by rewrite (proj2 (strip_prefix_Some (js "http") _ rest) eq_refl). }
  assert (Hother : forall host, (forall rest, host <> js "http" ++ rest) ->
                                agent.wsBaseUrl host = host).
  { intros host H. unfold agent.wsBaseUrl.
    destruct (agent.strip_prefix (js "http") host) as [rest|] eqn:Hs; [|reflexivity].
    apply strip_prefix_Some in Hs. by destruct (H rest). }
  assert (Hnot : forall host rest, agent.wsBaseUrl host <> js "http" ++ rest).
  { intros host rest H. unfold agent.wsBaseUrl in H.
    destruct (agent.strip_prefix (js "http") host) as [rest'|] eqn:Hs.
    - vm_compute in H. discriminate H.
    - apply strip_prefix_Some in H. congruence. }
  split; [|split; [|split; [|split]]].
  - intros rest signed_url. unfold agent.getVNCUrl.
    by rewrite Hhttp, <- app_assoc.
  - intros rest signed_url. unfold agent.getVNCUrl.
    change (js "https://" ++ rest) with (js "http" ++ (js "s://" ++ rest)).
    rewrite Hhttp. by rewrite <- !app_assoc.
  - intros host signed_url H. unfold agent.getVNCUrl. by rewrite Hother.
  - exact Hnot.
  - intros host. apply Hother. intros rest. apply Hnot.
Qed.

Lemma getVNCUrl_scheme_witness :
  agent.getVNCUrl (js "HTTP://host") (js "/vnc?sig=1") = js "HTTP://host/vnc?sig=1".
Proof.
  apply (proj1 (proj2 (proj2 getVNCUrl_scheme))).
  intros rest H. vm_compute in H. discriminate H.
Defined.

(** ** Every handler as a run of micro steps *)

Lemma micro_same r p q : view q = view p -> micro r p q.
Proof.
  intros H. apply (micro_push r p q []); [reflexivity|].
  rewrite app_nil_r. exact H.
Qed.

Lemma micro_weaken r p q : micro r p q -> micro true p q.
Proof.
  intros [e H|k Hk H|_ H];
    [by eapply micro_event|by eapply micro_push|by apply micro_reset].
Qed.

Lemma handleEvents_micro r es : forall p, rtc (micro r) p (handleEvents es p).
Proof.
  induction es as [|e es IH]; intros p; [apply rtc_refl|].
  rewrite handleEvents_cons. eapply rtc_l; [|apply IH].
  by apply (micro_event r _ _ e).
Qed.

Lemma chat_micro r now now_api rr message files p :
  micro r p (chat now now_api rr message files p).
Proof.
  unfold chat, chat_send.
  destruct (current_session p) as [sid|]; [|by apply micro_same].
  apply (micro_push r _ _
           ((if truthy (trim message)
             then [MessageEntry user (TextContent message (agentApi.unix_seconds now))]
             else [])
            ++ match files with
               | [] => []
               | _ :: _ => [AttachmentsEntry (UserFiles files)]
               end)).
  - destruct (truthy (trim message)), files; reflexivity.
  - unfold chat_prepare, chat_open, chat_settle, view.
    destruct (cancelCurrentChat (state p)), (truthy (trim message)), files, rr;
      simpl; rewrite <- ?app_assoc, ?app_nil_r; reflexivity.
Qed.

Lemma restoreSession_micro r t now now_api fetched rr p :
  rtc (micro r) p (restoreSession t now now_api fetched rr p).
Proof.
  unfold restoreSession.
  destruct (current_session p) as [sid|]; [|by apply rtc_once, micro_same].
  destruct fetched as [session|err]; [|by apply rtc_once, micro_same].
  set (p1 := set_realTime false (emit (GetSession sid) p)).
  set (p2 := handleEvents (session_events session) p1).
  assert (H2 : rtc (micro r) p p2).
  { eapply rtc_l; [apply (micro_same r p p1); reflexivity|].
    apply handleEvents_micro. }
  change (replay (session_events session) (emit (GetSession sid) p))
    with (set_realTime true p2).
  assert (H3 : rtc (micro r) p (set_realTime true p2))
    by (eapply rtc_r; [exact H2|by apply micro_same]).
  destruct (is_active (session_status session)).
  - eapply rtc_r; [eapply rtc_r; [exact H3|apply chat_micro]|].
    by apply micro_same.
  - eapply rtc_r; [exact H3|]. by apply micro_same.
Qed.

(** Whatever the component does is a run of micro steps; only a route
    change resets. *)
Lemma perform_micro t a p : rtc (micro (navigates a)) p (perform t a p).
Proof.
  destruct a; simpl.
  - destruct cb; simpl.
    + by apply rtc_once, micro_same.
    + by apply rtc_once, (micro_event _ _ _ event).
    + apply rtc_once, micro_same.
      unfold onClose, clear_cancelCurrentChat. case_match; reflexivity.
    + apply rtc_once, micro_same.
      unfold onError, clear_cancelCurrentChat. case_match; reflexivity.
  - unfold onMounted. destruct route as [sid|]; [|by apply rtc_once, micro_same].
    destruct (truthy sid); [|by apply rtc_once, micro_same].
    eapply rtc_l;
      [apply (micro_same _ p (set_sessionId (Some sid) (emit HideFilePanel p)));
       reflexivity|].
    destruct message as [m|]; [destruct (truthy m)|];
      first [apply rtc_once, chat_micro|apply restoreSession_micro].
  - apply rtc_once, chat_micro.
  - apply restoreSession_micro.
  - unfold onBeforeRouteUpdate.
    set (p0 := emit HideFilePanel (if toolPanel p then emit HideToolPanel p else p)).
    assert (H0 : micro true p p0)
      by (apply micro_same; unfold p0; destruct (toolPanel p); reflexivity).
    assert (H1 : micro true p0 (resetState t p0)).
    { apply micro_reset; [reflexivity|].
      unfold resetState, call_cancelCurrentChat, view.
      destruct (cancelCurrentChat (state p0)); reflexivity. }
    assert (H01 : rtc (micro true) p (resetState t p0))
      by (eapply rtc_l; [exact H0|by apply rtc_once]).
    destruct to as [sid|]; [|exact H01]. destruct (truthy sid); [|exact H01].
    eapply rtc_trans; [exact H01|].
    eapply rtc_l; [|apply restoreSession_micro].
    apply micro_same. unfold resetState, call_cancelCurrentChat, view.
    destruct (cancelCurrentChat (state p0)); reflexivity.
  - apply rtc_once, micro_same. unfold onUnmounted. case_match; reflexivity.
  - apply rtc_once, micro_same. unfold handleToolClick. repeat case_match; reflexivity.
  - apply rtc_once, micro_same. unfold jumpToRealTime. repeat case_match; reflexivity.
  - by apply rtc_once, micro_same.
  - by apply rtc_once, micro_same.
  - apply rtc_once, micro_same. unfold handleStop. case_match; reflexivity.
Qed.

(** A property of pages that every micro step keeps holds of every page
    the component reaches. *)
Lemma reachable_by_micro t (P : Page -> Prop) :
  P (mount t) ->
  (forall p q, micro true p q -> P p -> P q) ->
  forall p, reachable t p -> P p.
Proof.
  intros Hmount Hstep p Hreach.
  induction Hreach as [|a p Hreach IH]; [exact Hmount|].
  assert (Hrun : rtc (micro true) p (perform t a p)).
  { eapply rtc_subrel; [|apply perform_micro]. intros x y. apply micro_weaken. }
  clear Hreach. induction Hrun as [|x y z Hxy Hyz IHrun]; [exact IH|].
  apply IHrun. by eapply Hstep.
Qed.

(** A reflexive and transitive relation on pages that every micro step
    satisfies relates a page to what any action makes of it. *)
Lemma perform_by_micro t r (R : Page -> Page -> Prop) :
  (forall p, R p p) ->
  (forall p q s, R p q -> R q s -> R p s) ->
  (forall p q, micro r p q -> R p q) ->
  forall a p, (navigates a = true -> r = true) -> R p (perform t a p).
Proof.
  intros Hrefl Htrans Hstep a p Hnav.
  assert (Hrun : rtc (micro r) p (perform t a p)).
  { destruct (navigates a) eqn:Ha.
    - rewrite (Hnav eq_refl). generalize (perform_micro t a p). by rewrite Ha.
    - generalize (perform_micro t a p). rewrite Ha.
      apply rtc_subrel. intros x y [e H|k Hk H|Hf H];
        [by eapply micro_event|by eapply micro_push|discriminate Hf]. }
  induction Hrun as [|x y z Hxy Hyz IHrun]; [apply Hrefl|].
  eapply Htrans; [by apply Hstep|exact IHrun].
Qed.

(** ** What an event does to the view *)

Lemma view_inv q ms s l n :
  view q = (ms, s, l, n) ->
  messages (state q) = ms /\ store q = s /\
  lastTool (state q) = l /\ lastNoMessageTool (state q) = n.
Proof. unfold view. intros [= -> -> -> ->]. auto. Qed.

Lemma open_step_lookup p i c :
  open_step p = Some (i, c) ->
  messages (state p) !! i = Some (StepEntry c) /\ StepContent.status c = running.
Proof.
  unfold open_step. destruct (getLastStep p) as [[i' c']|] eqn:Hl; [|discriminate].
  destruct (StepContent.status c') eqn:Hs; try discriminate.
  intros [= -> ->]. split; [by apply getLastStep_lookup|exact Hs].
Qed.

(** The transcript after an event: new entries at the end, or one step
    entry rewritten in its place, completed or with one more tool. *)
Lemma handleEvent_messages e p :
  (exists k, messages (state (handleEvent e p)) = messages (state p) ++ k /\
             Forall fresh_entry k) \/
  (exists i c c',
     messages (state p) !! i = Some (StepEntry c) /\
     messages (state (handleEvent e p)) = <[i := StepEntry c']> (messages (state p)) /\
     (c' = StepContent.set_status completed c \/
      exists a, c' = StepContent.push_tool a c)).
Proof.
  assert (Hsame : forall q, messages (state q) = messages (state p) ->
            exists k, messages (state q) = messages (state p) ++ k /\ Forall fresh_entry k).
  { intros q ->. exists []. by rewrite app_nil_r. }
  destruct e as [d|d|d|i|i|d|d|d]; try (left; by apply Hsame).
  - left. change (messages (state (handleEvent (Event.message d) p)))
      with (messages (state (handleMessageEvent d p))).
    unfold handleMessageEvent. destruct (has_attachments d); cbn.
    + rewrite <- app_assoc. eexists. split; [reflexivity|]. by repeat constructor.
    + eexists. split; [reflexivity|]. by repeat constructor.
  - destruct (tracked (ToolContent.tool_call_id d) p) as [[a o]|] eqn:Ht.
    + left. apply Hsame. exact (proj1 (handleToolEvent_merge d p a o Ht)).
    + destruct (handleEvent_tool_place d p Ht) as (_ & _ & ->).
      destruct (open_step p) as [[i c]|] eqn:Ho.
      * right. apply open_step_lookup in Ho as [Hi _].
        exists i, c, (StepContent.push_tool (length (store p)) c). eauto.
      * left. eexists. split; [reflexivity|]. by repeat constructor.
  - destruct (handleStepEvent_view d p) as (-> & _ & _).
    destruct (StepEventData.status d) eqn:Hs; try (left; by apply Hsame).
    + left. eexists. split; [reflexivity|]. repeat constructor. exact Hs.
    + destruct (getLastStep p) as [[i c]|] eqn:Hl; [|left; by apply Hsame].
      right. apply getLastStep_lookup in Hl as [Hi _]. exists i, c. eauto.
  - left. eexists. split; [reflexivity|]. by repeat constructor.
Qed.

(** The store after an event: only a tool event touches it; it adds one
    object, the copy of its payload, and writes at most the tracked one. *)
Lemma handleEvent_store e p :
  match e with
  | Event.tool d =>
      match tracked (ToolContent.tool_call_id d) p with
      | Some (a, o) =>
          store (handleEvent e p) = <[a := Object_assign o d]> (store p ++ [d])
      | None => store (handleEvent e p) = store p ++ [d]
      end
  | _ => store (handleEvent e p) = store p
  end.
Proof.
  destruct e as [d|d|d|i|i|d|d|d]; try reflexivity.
  - change (store (handleMessageEvent d p) = store p).
    unfold handleMessageEvent. destruct (has_attachments d); reflexivity.
  - destruct (tracked (ToolContent.tool_call_id d) p) as [[a o]|] eqn:Ht.
    + exact (proj2 (proj2 (handleToolEvent_merge d p a o Ht))).
    + exact (proj1 (handleEvent_tool_place d p Ht)).
  - exact (proj1 (proj2 (handleStepEvent_view d p))).
Qed.

Lemma objects_kept_refl s : objects_kept s s.
Proof. intros b o H. eauto. Qed.

Lemma objects_kept_trans s1 s2 s3 :
  objects_kept s1 s2 -> objects_kept s2 s3 -> objects_kept s1 s3.
Proof.
  intros H12 H23 b o H. destruct (H12 b o H) as (o2 & H2 & E2).
  destruct (H23 b o2 H2) as (o3 & H3 & E3). exists o3. split; [exact H3|congruence].
Qed.

Lemma handleEvent_objects_kept e p :
  objects_kept (store p) (store (handleEvent e p)).
Proof.
  pose proof (handleEvent_store e p) as Hs.
  destruct e as [d|d|d|i|i|d|d|d]; try (rewrite Hs; apply objects_kept_refl).
  destruct (tracked (ToolContent.tool_call_id d) p) as [[a o]|] eqn:Ht; rewrite Hs.
  - apply tracked_Some in Ht as (_ & Ha & Hid). intros b ob Hb.
    destruct (decide (a = b)) as [->|Hne].
    + exists (Object_assign o d). split.
      * apply list_lookup_insert_eq. rewrite length_app.
        apply lookup_lt_Some in Hb. lia.
      * rewrite Object_assign_id. congruence.
    + exists ob. split; [|reflexivity].
      rewrite list_lookup_insert_ne by exact Hne. by apply lookup_app_l_Some.
  - intros b ob Hb. exists ob. split; [|reflexivity]. by apply lookup_app_l_Some.
Qed.

Lemma micro_objects_kept r p q : micro r p q -> objects_kept (store p) (store q).
Proof.
  intros [e H|k Hk H|_ H]; unfold view at 2 in H || idtac;
    apply view_inv in H as (_ & -> & _).
  - apply handleEvent_objects_kept.
  - apply objects_kept_refl.
  - apply objects_kept_refl.
Qed.

(** X7. No action removes a tool object from the store or changes the
    [tool_call_id] of one. A tool event adds exactly one object, equal to
    its payload, and changes at most one existing object, the tracked one;
    every other event leaves the store alone. *)
Theorem tool_objects_are_kept :
  (forall t a p, objects_kept (store p) (store (perform t a p))) /\
  (forall d p,
     let p' := handleEvent (Event.tool d) p in
     length (store p') = S (length (store p)) /\
     store p' !! length (store p) = Some d /\
     forall b, (b < length (store p))%nat ->
       store p' !! b <> store p !! b ->
       exists o, tracked (ToolContent.tool_call_id d) p = Some (b, o)) /\
  (forall e p,
     (forall d, e <> Event.tool d) -> store (handleEvent e p) = store p).
Proof.
  split; [|split].
  - intros t a p.
    apply (perform_by_micro t true (fun p q => objects_kept (store p) (store q))).
    + intros q. apply objects_kept_refl.
    + intros q1 q2 q3. apply objects_kept_trans.
    + intros q1 q2. apply micro_objects_kept.
    + auto.
  - intros d p p'. pose proof (handleEvent_store (Event.tool d) p) as Hs.
    fold p' in Hs. cbv beta iota in Hs.
    destruct (tracked (ToolContent.tool_call_id d) p) as [[a o]|] eqn:Ht; rewrite Hs.
    + apply tracked_Some in Ht as (Hl & Ha & Hid).
      pose proof (lookup_lt_Some _ _ _ Ha) as Hlt.
      rewrite length_insert, length_app. simpl. split; [lia|]. split.
      * rewrite list_lookup_insert_ne by lia. by apply list_lookup_middle.
      * intros b Hb Hne. destruct (decide (a = b)) as [<-|Hab]; [eauto|].
        exfalso. apply Hne. rewrite list_lookup_insert_ne by exact Hab.
        by apply lookup_app_l.
    + rewrite length_app. simpl. split; [lia|]. split.
      * by apply list_lookup_middle.
      * intros b Hb Hne. exfalso. apply Hne. by apply lookup_app_l.
  - intros e p Hne. pose proof (handleEvent_store e p) as Hs.
    destruct e; try exact Hs. by destruct (Hne data).
Qed.

Lemma tool_objects_are_kept_witness :
  store (handleEvent (Event.message hi_message) t1_done_page) = store t1_done_page.
Proof.
  apply (proj2 (proj2 tool_objects_are_kept)). intros d H. discriminate H.
Defined.

(** ** Pages the component reaches *)

Lemma tool_addrs_plain ms k :
  forallb plain k = true -> tool_addrs (ms ++ k) = tool_addrs ms.
Proof.
  intros Hk. rewrite tool_addrs_app.
  assert (tool_addrs k = []) as ->; [|by rewrite app_nil_r].
  induction k as [|m k IH]; [reflexivity|]. simpl in Hk.
  apply andb_true_iff in Hk as [Hm Hk]. unfold tool_addrs in *. simpl.
  rewrite (IH Hk). by destruct m.
Qed.

Lemma micro_well_formed r p q : micro r p q -> well_formed p -> well_formed q.
Proof.
  intros [e H|k Hk H|_ H] Hwf.
  - unfold view at 2 in H. apply view_inv in H as (Hm & Hs & Hl & _).
    eapply well_formed_view; [by rewrite Hm|exact Hs|exact Hl|].
    by apply well_formed_handleEvent.
  - apply view_inv in H as (Hm & Hs & Hl & _).
    eapply well_formed_view; [|exact Hs|exact Hl|exact Hwf].
    rewrite Hm. by apply tool_addrs_plain.
  - apply view_inv in H as (Hm & Hs & Hl & _).
    unfold well_formed, refs_in_store, lastTool_listed. rewrite Hm, Hl.
    split; [apply Forall_nil_2|]. intros a Ha. discriminate Ha.
Qed.

Lemma handleToolEvent_lastNoMessageTool d p :
  lastNoMessageTool (state (handleEvent (Event.tool d) p)) =
    if decide (ToolContent.name d = js "message")
    then lastNoMessageTool (state p)
    else Some (length (store p)).
Proof.
  unfold handleEvent, handleToolEvent.
  destruct (decide (ToolContent.name d = js "message"));
    repeat (case_match; simpl); reflexivity.
Qed.

Lemma handleEvent_lastNoMessageTool e p :
  (forall d, e <> Event.tool d) ->
  lastNoMessageTool (state (handleEvent e p)) = lastNoMessageTool (state p).
Proof.
  intros Hne. destruct e as [d|d|d|i|i|d|d|d]; try reflexivity.
  - unfold handleEvent, handleMessageEvent. destruct (has_attachments d); reflexivity.
  - by destruct (Hne d).
  - unfold handleEvent, handleStepEvent. repeat (case_match; simpl); reflexivity.
Qed.

Lemma store_grows e p : (length (store p) <= length (store (handleEvent e p)))%nat.
Proof.
  pose proof (handleEvent_store e p) as Hs.
  destruct e; try (rewrite Hs; lia).
  destruct (tracked (ToolContent.tool_call_id data) p) as [[a o]|]; rewrite Hs;
    rewrite ?length_insert, length_app; lia.
Qed.

Lemma micro_lastNoMessageTool r p q :
  micro r p q -> lastNoMessageTool_in_store p -> lastNoMessageTool_in_store q.
Proof.
  unfold lastNoMessageTool_in_store.
  intros [e H|k Hk H|_ H] Hin a.
  - unfold view at 2 in H. apply view_inv in H as (_ & -> & _ & ->).
    pose proof (store_grows e p) as Hlen.
    assert (Hcases : (exists d, e = Event.tool d) \/ (forall d, e <> Event.tool d))
      by (destruct e; eauto; right; intros ? ?; discriminate).
    destruct Hcases as [[d ->]|Hnt].
    + rewrite handleToolEvent_lastNoMessageTool.
      pose proof (handleEvent_store (Event.tool d) p) as Hs. cbv beta iota in Hs.
      assert (length (store (handleEvent (Event.tool d) p)) = S (length (store p))).
      { destruct (tracked _ p) as [[a' o]|]; rewrite Hs;
          rewrite ?length_insert, length_app; simpl; lia. }
      destruct (decide _); [intros Ha; specialize (Hin a Ha); lia|].
      intros [= <-]. lia.
    + rewrite handleEvent_lastNoMessageTool by exact Hnt.
      intros Ha. specialize (Hin a Ha). lia.
  - apply view_inv in H as (_ & -> & _ & ->). apply Hin.
  - apply view_inv in H as (_ & _ & _ & ->). discriminate.
Qed.

(** X1. Every page the component reaches is free of dangling references:
    each tool reference of the transcript, the tracked tool and the last
    non-message tool are objects of the store, and the tracked tool is an
    entry of the transcript. *)
Theorem reachable_pages_have_no_dangling_reference t p :
  reachable t p ->
  well_formed p /\
  lastNoMessageTool_in_store p /\
  (forall a, lastTool (state p) = Some a -> is_Some (store p !! a)) /\
  (forall a, lastNoMessageTool (state p) = Some a -> is_Some (store p !! a)).
Proof.
  intros Hreach.
  assert (H : well_formed p /\ lastNoMessageTool_in_store p).
  { revert p Hreach. apply reachable_by_micro.
    - split; [apply well_formed_mount|]. intros a Ha. discriminate Ha.
    - intros p q Hm [Hwf Hn]. split;
        [by eapply micro_well_formed|by eapply micro_lastNoMessageTool]. }
  destruct H as [Hwf Hn]. split; [exact Hwf|]. split; [exact Hn|]. split.
  - intros a Ha. apply lookup_lt_is_Some. destruct Hwf as [Hrefs Hlisted].
    unfold refs_in_store in Hrefs. rewrite Forall_forall in Hrefs.
    by apply Hrefs, Hlisted.
  - intros a Ha. apply lookup_lt_is_Some. by apply Hn.
Qed.

Lemma a_reached_page_reachable : reachable (fun k => k) a_reached_page.
Proof. unfold a_reached_page. repeat apply reachable_perform. apply reachable_mount. Defined.

Lemma reachable_pages_have_no_dangling_reference_witness :
  well_formed a_reached_page /\ is_Some (store a_reached_page !! 0%nat).
Proof.
  destruct (reachable_pages_have_no_dangling_reference (fun k => k) a_reached_page
              a_reached_page_reachable) as (Hwf & _ & Hlast & _).
  split; [exact Hwf|]. apply Hlast. reflexivity.
Defined.

Lemma micro_steps_shown_ok r p q :
  micro r p q ->
  Forall (fun m => shown_status_ok m = true) (messages (state p)) ->
  Forall (fun m => shown_status_ok m = true) (messages (state q)).
Proof.
  intros [e H|k Hk H|_ H] Hok.
  - unfold view at 2 in H. apply view_inv in H as (-> & _).
    destruct (handleEvent_messages e p) as [(k & -> & Hk)|(i & c & c' & Hi & -> & Hc)].
    + apply Forall_app. split; [exact Hok|].
      eapply Forall_impl; [exact Hk|]. intros [] Hf; try reflexivity.
      simpl in *. destruct Hf as [-> _]. reflexivity.
    + apply Forall_insert; [exact Hok|].
      destruct Hc as [->|[a ->]]; [reflexivity|].
      rewrite Forall_forall in Hok.
      apply (Hok (StepEntry c)). by eapply list_elem_of_lookup_2.
  - apply view_inv in H as (-> & _). apply Forall_app. split; [exact Hok|].
    apply Forall_forall. intros m Hm.
    rewrite forallb_forall in Hk. apply list_elem_of_In in Hm.
    specialize (Hk m Hm). by destruct m.
  - apply view_inv in H as (-> & _). apply Forall_nil_2.
Qed.

(** X2. In every page the component reaches, each step entry of the
    transcript shows the status running or completed: no event ever makes a
    step entry show failed or pending, not even a step event that carries
    that status. *)
Theorem reachable_steps_show_running_or_completed t p :
  reachable t p ->
  forall i c,
    messages (state p) !! i = Some (StepEntry c) ->
    StepContent.status c = running \/ StepContent.status c = completed.
Proof.
  intros Hreach.
  assert (H : Forall (fun m => shown_status_ok m = true) (messages (state p))).
  { revert p Hreach. apply reachable_by_micro; [apply Forall_nil_2|].
    intros p q. apply micro_steps_shown_ok. }
  intros i c Hi. rewrite Forall_forall in H.
  specialize (H (StepEntry c) (list_elem_of_lookup_2 _ _ _ Hi)). simpl in H.
  destruct (StepContent.status c); auto; discriminate.
Qed.

Lemma a_failed_step_page_reachable : reachable (fun k => k) a_failed_step_page.
Proof.
  unfold a_failed_step_page. repeat apply reachable_perform. apply reachable_mount.
Defined.

Lemma reachable_steps_show_running_or_completed_witness :
  StepContent.status (StepContent.of_event s1_running) = running \/
  StepContent.status (StepContent.of_event s1_running) = completed.
Proof.
  exact (reachable_steps_show_running_or_completed (fun k => k) a_failed_step_page
           a_failed_step_page_reachable 0 (StepContent.of_event s1_running) eq_refl).
Defined.

(** ** The transcript over time *)











Lemma open_step_same p q :
  messages (state q) = messages (state p) -> open_step q = open_step p.
Proof. unfold open_step, getLastStep. by intros ->. Qed.

Lemma tracked_same id p q :
  store q = store p -> lastTool (state q) = lastTool (state p) ->
  tracked id q = tracked id p.
Proof. unfold tracked. by intros -> ->. Qed.

(** X3. A step event with status failed stops the loading indicator and
    leaves the step entry as it is, still running: a new tool call that
    follows is nested under that step, not appended as a top-level entry. *)
Theorem failed_step_stays_open s d p i c :
  StepEventData.status s = failed ->
  open_step p = Some (i, c) ->
  tracked (ToolContent.tool_call_id d) p = None ->
  let p1 := handleEvent (Event.step s) p in
  let p2 := handleEvent (Event.tool d) p1 in
  isLoading (state p1) = false /\
  messages (state p1) = messages (state p) /\
  open_step p1 = Some (i, c) /\
  messages (state p2) =
    <[i := StepEntry (StepContent.push_tool (length (store p)) c)]> (messages (state p)) /\
  top_level_tools p2 = top_level_tools p.
Proof.
  intros Hs Ho Ht p1 p2.
  destruct (handleStepEvent_view s p) as (Hm & Hst & Hl). fold p1 in Hm, Hst, Hl.
  rewrite Hs in Hm.
  assert (Ho1 : open_step p1 = Some (i, c)) by (by rewrite (open_step_same p p1 Hm)).
  assert (Ht1 : tracked (ToolContent.tool_call_id d) p1 = None)
    by (by rewrite (tracked_same _ p p1 Hst Hl)).
  destruct (handleEvent_tool_place d p1 Ht1) as (_ & _ & Hm2). fold p2 in Hm2.
  rewrite Ho1, Hst, Hm in Hm2.
  split; [|split; [exact Hm|split; [exact Ho1|split; [exact Hm2|]]]].
  - unfold p1, handleEvent, handleStepEvent. rewrite Hs. reflexivity.
  - unfold top_level_tools. rewrite Hm2.
    apply open_step_lookup in Ho as [Hi _].
    rewrite insert_take_drop by (by eapply lookup_lt_Some).
    rewrite <- (take_drop_middle _ _ _ Hi) at 3.
    rewrite !map_app, !concat_app. reflexivity.
Qed.

Lemma failed_step_stays_open_witness :
  messages (state (handleEvents [Event.step s1_failed; Event.tool tool_A] stepping_page)) =
    [StepEntry (StepContent.mk (js "s1") (js "first step") running (js "s-0") [0%nat])].
Proof.
  exact (proj1 (proj2 (proj2 (proj2
           (failed_step_stays_open s1_failed tool_A stepping_page 0
              (StepContent.of_event s1_running) eq_refl eq_refl eq_refl))))).
Defined.

(** ** Title, plan and inspector notifications *)

Lemma handleEvent_plan_title e p :
  plan (state (handleEvent e p)) =
    match e with Event.plan d => Some d | _ => plan (state p) end /\
  title (state (handleEvent e p)) =
    match e with Event.title d => TitleEventData.title d | _ => title (state p) end.
Proof.
  destruct e as [d|d|d|i|i|d|d|d]; try (split; reflexivity).
  - unfold handleEvent, handleMessageEvent. destruct (has_attachments d); split; reflexivity.
  - unfold handleEvent, handleToolEvent. repeat (case_match; simpl); split; reflexivity.
  - unfold handleEvent, handleStepEvent. repeat (case_match; simpl); split; reflexivity.
Qed.

(** X5. After folding a list of events the plan is the payload of the
    last plan event of the list and the title that of the last title event;
    without such an event they are what they were. Earlier plans and titles
    leave no trace. *)
Theorem last_plan_and_title_win es p :
  plan (state (handleEvents es p)) =
    match last (plans es) with Some d => Some d | None => plan (state p) end /\
  title (state (handleEvents es p)) = default (title (state p)) (last (titles es)).
Proof.
  induction es as [|e es IH] using rev_ind; [split; reflexivity|].
  rewrite handleEvents_app. change (handleEvents [e] ?q) with (handleEvent e q).
  destruct (handleEvent_plan_title e (handleEvents es p)) as [Hp Ht].
  destruct IH as [IHp IHt]. rewrite Hp, Ht, IHp, IHt.
  unfold plans, titles. rewrite !omap_app, !last_app.
  destruct e; simpl; split; reflexivity.
Qed.

Lemma handleEvent_log_exact e p :
  log (handleEvent e p) =
    log p ++ (if realTime (state p) && toolPanel p
              then notified (length (store p)) [e] else []).
Proof.
  assert (Hnil : log p = log p ++ (if realTime (state p) && toolPanel p then [] else []))
    by (destruct (_ && _); by rewrite app_nil_r).
  destruct e as [d|d|d|i|i|d|d|d]; try exact Hnil.
  - unfold handleEvent, handleMessageEvent. destruct (has_attachments d); exact Hnil.
  - unfold handleEvent, handleToolEvent. cbn [notified].
    match goal with
    | |- context [if decide _ then ?q else _] => set (placed := q)
    end.
    assert (Hq1 : realTime (state placed) = realTime (state p))
      by (subst placed; repeat (case_match; simpl); auto).
    assert (Hq2 : toolPanel placed = toolPanel p)
      by (subst placed; repeat (case_match; simpl); auto).
    assert (Hq3 : log placed = log p)
      by (subst placed; repeat (case_match; simpl); auto).
    clearbody placed.
    destruct (decide (ToolContent.name d = js "message")).
    + cbn [set_lastEventId with_state log]. rewrite Hq3. exact Hnil.
    + cbn [set_lastNoMessageTool set_lastEventId with_state state realTime toolPanel].
      rewrite Hq1, Hq2.
      destruct (realTime (state p) && toolPanel p); cbn; rewrite Hq3;
        [reflexivity|by rewrite app_nil_r].
  - unfold handleEvent, handleStepEvent. repeat (case_match; simpl); exact Hnil.
Qed.

Lemma notified_cons n e es :
  notified n (e :: es) =
    notified n [e]
    ++ notified (n + length (tool_events [e])) es.
Proof.
  destruct e; simpl; rewrite ?Nat.add_0_r, ?Nat.add_1_r, ?app_nil_r; reflexivity.
Qed.

Lemma handleEvent_store_length e p :
  length (store (handleEvent e p)) = (length (store p) + length (tool_events [e]))%nat.
Proof.
  pose proof (handleEvent_store e p) as Hs.
  assert (Hlen : length (tool_events [e]) = match e with Event.tool _ => 1 | _ => 0 end%nat)
    by (destruct e; reflexivity).
  rewrite Hlen. destruct e; try (rewrite Hs; lia).
  destruct (tracked _ p) as [[a o]|]; rewrite Hs;
    rewrite ?length_insert, length_app; simpl; lia.
Qed.

(** X6. Folding events in real-time mode with the tool panel rendered
    notifies the inspector once for every tool event whose name is not
    "message", in order, each time for the object just created for that
    event and with the live flag set; with real-time mode off or no panel
    it makes no call. Every tool event adds one object to the store and no
    other event adds any. *)
Theorem live_fold_notifications es : forall p,
  log (handleEvents es p) =
    log p ++ (if realTime (state p) && toolPanel p
              then notified (length (store p)) es else []) /\
  length (store (handleEvents es p)) = (length (store p) + length (tool_events es))%nat.
Proof.
  induction es as [|e es IH]; intros p.
  - split; [destruct (_ && _); by rewrite app_nil_r|simpl; lia].
  - rewrite handleEvents_cons. destruct (IH (handleEvent e p)) as [Hl Hs].
    pose proof (handleEvent_controller_fields e p) as Hf. cbv zeta in Hf.
    destruct Hf as (_ & _ & Hrt & Htp).
    rewrite Hl, Hs, Hrt, Htp, handleEvent_log_exact, handleEvent_store_length.
    split.
    + rewrite (notified_cons _ e es).
      destruct (realTime (state p) && toolPanel p);
        rewrite <- ?app_assoc, ?app_nil_r; reflexivity.
    + change (e :: es) with ([e] ++ es). unfold tool_events.
      rewrite omap_app, length_app. lia.
Qed.

(** X8. After a tool event whose name is not "message",
    [lastNoMessageTool] refers to the object created for that event, which
    holds exactly the event's payload. When the event updates the tracked
    tool, that object is not the transcript's entry: the entry is the
    tracked object with the payload assigned onto it. A tool event named
    "message" leaves [lastNoMessageTool] as it was. *)
Theorem lastNoMessageTool_is_the_payload d p :
  let p' := handleEvent (Event.tool d) p in
  (ToolContent.name d <> js "message" ->
   lastNoMessageTool (state p') = Some (length (store p)) /\
   store p' !! length (store p) = Some d /\
   lastNoMessageTool_id p' = Some (ToolContent.tool_call_id d) /\
   forall a o, tracked (ToolContent.tool_call_id d) p = Some (a, o) ->
     lastTool (state p') = Some a /\ a <> length (store p) /\
     store p' !! a = Some (Object_assign o d)) /\
  (ToolContent.name d = js "message" ->
   lastNoMessageTool (state p') = lastNoMessageTool (state p)).
Proof.
  intros p'. pose proof (handleToolEvent_lastNoMessageTool d p) as Hn. fold p' in Hn.
  assert (Hd : store p' !! length (store p) = Some d).
  { pose proof (handleEvent_store (Event.tool d) p) as Hs. fold p' in Hs.
    cbv beta iota in Hs.
    destruct (tracked _ p) as [[a o]|] eqn:Ht; rewrite Hs.
    - apply tracked_Some in Ht as (_ & Ha & _). apply lookup_lt_Some in Ha.
      rewrite list_lookup_insert_ne by lia. by apply list_lookup_middle.
    - by apply list_lookup_middle. }
  split.
  - intros Hne. rewrite decide_False in Hn by exact Hne.
    split; [exact Hn|]. split; [exact Hd|]. split.
    + unfold lastNoMessageTool_id. rewrite Hn, Hd. reflexivity.
    + intros a o Ht. destruct (handleToolEvent_merge d p a o Ht) as (_ & Hl & Hs).
      apply tracked_Some in Ht as (Hlast & Ha & _).
      pose proof (lookup_lt_Some _ _ _ Ha) as Hlt.
      split; [rewrite <- Hlast; exact Hl|]. split; [lia|].
      change (store p') with (store (handleToolEvent d p)). rewrite Hs.
      apply list_lookup_insert_eq. rewrite length_app. lia.
  - intros He. by rewrite decide_True in Hn by exact He.
Qed.

Lemma lastNoMessageTool_is_the_payload_witness :
  lastNoMessageTool (state (handleEvent (Event.tool t1_calling) t1_done_page)) = Some 1%nat /\
  store (handleEvent (Event.tool t1_calling) t1_done_page) !! 1%nat = Some t1_calling.
Proof.
  destruct (proj1 (lastNoMessageTool_is_the_payload t1_calling t1_done_page))
    as (H1 & H2 & _).
  - intros H. vm_compute in H. discriminate H.
  - split; [exact H1|exact H2].
Defined.

(** ** How many entries a tool call has *)

Lemma filter_omap_same_ids (id : jsstring) (s s' : list ToolContent.t) (l : list addr) :
  (forall b o, b ∈ l -> s !! b = Some o ->
     exists o', s' !! b = Some o' /\
                ToolContent.tool_call_id o' = ToolContent.tool_call_id o) ->
  Forall (fun b => (b < length s)%nat) l ->
  length (filter (fun o => ToolContent.tool_call_id o = id) (omap (fun a => s' !! a) l)) =
  length (filter (fun o => ToolContent.tool_call_id o = id) (omap (fun a => s !! a) l)).
Proof.
  induction l as [|b l IH]; intros H Hlt; [reflexivity|].
  inversion Hlt as [|? ? Hb Hl]; subst.
  assert (IH' := IH (fun b' o Hin => H b' o (list_elem_of_further _ _ _ Hin)) Hl).
  destruct (lookup_lt_is_Some_2 _ _ Hb) as [o Ho].
  destruct (H b o (list_elem_of_here _ _) Ho) as (o' & Ho' & Hid).
  simpl. rewrite Ho, Ho'. rewrite !filter_cons.
  destruct (decide (ToolContent.tool_call_id o' = id)) as [E|E];
    destruct (decide (ToolContent.tool_call_id o = id)) as [E'|E'];
    try congruence.
  - cbn [length]. f_equal. exact IH'.
  - exact IH'.
Qed.

(** The number of entries with a given id after a tool event. *)
Lemma count_after_tool_event id d p :
  well_formed p ->
  length (entries_for id (handleEvent (Event.tool d) p)) =
    (length (entries_for id p)
     + match tracked (ToolContent.tool_call_id d) p with
       | Some _ => 0
       | None => if decide (ToolContent.tool_call_id d = id) then 1 else 0
       end)%nat.
Proof.
  intros [Hrefs _]. unfold entries_for, tool_entries.
  pose proof (handleEvent_store (Event.tool d) p) as Hs. cbv beta iota in Hs.
  destruct (tracked (ToolContent.tool_call_id d) p) as [[a o]|] eqn:Ht.
  - destruct (handleToolEvent_merge d p a o Ht) as (Hm & _ & _).
    change (messages (state (handleEvent (Event.tool d) p)))
      with (messages (state (handleToolEvent d p))).
    rewrite Hm, Nat.add_0_r. apply filter_omap_same_ids; [|exact Hrefs].
    intros b ob _ Hb.
    exact (handleEvent_objects_kept (Event.tool d) p b ob Hb).
  - destruct (handleToolEvent_place_addrs d p Ht) as (l1 & l2 & Hold & Hnew).
    change (messages (state (handleEvent (Event.tool d) p)))
      with (messages (state (handleToolEvent d p))).
    rewrite Hnew, Hold, Hs. unfold refs_in_store in Hrefs. rewrite Hold in Hrefs.
    rewrite !omap_app, !filter_app, !length_app.
    assert (Hkeep : forall l, Forall (fun b => (b < length (store p))%nat) l ->
              omap (fun b => (store p ++ [d]) !! b) l = omap (fun b => store p !! b) l).
    { intros l Hl. apply omap_lookup_agree. intros b Hb.
      rewrite Forall_forall in Hl. by apply lookup_app_l, Hl. }
    apply Forall_app in Hrefs as [H1 H2].
    rewrite (Hkeep l1 H1), (Hkeep l2 H2).
    assert (Hd : omap (fun b => (store p ++ [d]) !! b) [length (store p)] = [d])
      by (simpl; by rewrite list_lookup_middle).
    rewrite Hd, filter_cons.
    destruct (decide (ToolContent.tool_call_id d = id)); simpl; lia.
Qed.

(** X9. On a well-formed page a tool event leaves the number of entries
    of every tool call as it is when it updates the tracked tool, and
    otherwise adds exactly one entry, for its own id. Only the tracked tool
    is looked at: an event whose id is not the tracked tool's adds an entry
    even when the transcript already has one for that id. *)
Theorem entries_per_tool_call id d p :
  well_formed p ->
  let p' := handleEvent (Event.tool d) p in
  length (entries_for id p') =
    (length (entries_for id p)
     + match tracked (ToolContent.tool_call_id d) p with
       | Some _ => 0
       | None => if decide (ToolContent.tool_call_id d = id) then 1 else 0
       end)%nat /\
  (forall a o,
     lastTool (state p) = Some a -> store p !! a = Some o ->
     ToolContent.tool_call_id o <> ToolContent.tool_call_id d ->
     length (entries_for (ToolContent.tool_call_id d) p') =
       S (length (entries_for (ToolContent.tool_call_id d) p))).
Proof.
  intros Hwf p'. split; [by apply count_after_tool_event|].
  intros a o Hl Ha Hne. unfold p'. rewrite count_after_tool_event by exact Hwf.
  assert (Ht : tracked (ToolContent.tool_call_id d) p = None).
  { unfold tracked. rewrite Hl, Ha. by rewrite decide_False. }
  rewrite Ht, decide_True by reflexivity. lia.
Qed.

(** "t1" is called, "B" is called, then "t1" reports again: the transcript
    ends up with two entries for "t1". *)
Lemma entries_per_tool_call_witness :
  length (entries_for (js "t1")
            (handleToolEvents [t1_calling; tool_B; t1_called_ok] stepping_page)) = 2%nat.
Proof.
  assert (Hwf : well_formed (handleToolEvents [t1_calling; tool_B] stepping_page)).
  { apply well_formed_handleEvents.
    split; [apply Forall_nil_2|]. intros a H. discriminate H. }
  destruct (entries_per_tool_call (js "t1") t1_called_ok _ Hwf) as [_ H].
  exact (H 1%nat tool_B eq_refl eq_refl ltac:(intros E; vm_compute in E; discriminate E)).
Defined.

(** ** The inspector *)

(** X11. A click on a tool turns real-time mode off whether or not the
    inspector can be shown, and makes at most one call: it shows the
    clicked tool, provided a session id is set and the panel is rendered.
    From then on folding events notifies the inspector of nothing, however
    many tool events arrive, until "jump to real time" turns the mode on
    again. *)
Theorem pinned_inspector_is_not_notified now a es p :
  let q := handleToolClick now a p in
  realTime (state q) = false /\
  calls_since (length (log p)) q =
    match current_session p, store p !! a with
    | Some _, Some o =>
        if toolPanel p then [ShowToolPanel a (isLiveTool now o p)] else []
    | _, _ => []
    end /\
  log (handleEvents es q) = log q /\
  forall now', realTime (state (jumpToRealTime now' (handleEvents es q))) = true.
Proof.
  intros q.
  assert (Hrt : realTime (state q) = false).
  { unfold q, handleToolClick. repeat case_match; reflexivity. }
  split; [exact Hrt|]. split; [|split].
  - unfold q, handleToolClick, calls_since.
    change (current_session (set_realTime false p)) with (current_session p).
    change (store (set_realTime false p)) with (store p).
    change (toolPanel (set_realTime false p)) with (toolPanel p).
    destruct (current_session p), (store p !! a) as [o|], (toolPanel p);
      cbn [emit log set_realTime with_state]; rewrite ?drop_app_length, ?drop_all;
      reflexivity.
  - by apply handleEvents_silent.
  - intros now'. unfold jumpToRealTime. repeat case_match; reflexivity.
Qed.

(** X17. With timestamps in seconds, as the client itself writes them, a
    completed tool is never shown as live: clicking it, or jumping back to
    real time while it is the last non-message tool, calls the inspector
    with the flag false, however recent the tool is. *)
Theorem completed_tool_is_never_live now a o p sid :
  current_session p = Some sid ->
  toolPanel p = true ->
  store p !! a = Some o ->
  ToolContent.status o = called ->
  301000 <= now ->
  ToolContent.timestamp o <= agentApi.unix_seconds now ->
  calls_since (length (log p)) (handleToolClick now a p) = [ShowToolPanel a false] /\
  (lastNoMessageTool (state p) = Some a ->
   calls_since (length (log p)) (jumpToRealTime now p) = [ShowToolPanel a false]).
Proof.
  intros Hs Htp Ha Hst Hnow Hts. split.
  - unfold handleToolClick, calls_since.
    change (current_session (set_realTime false p)) with (current_session p).
    change (store (set_realTime false p)) with (store p).
    change (toolPanel (set_realTime false p)) with (toolPanel p).
    rewrite Hs, Ha, Htp. cbn [emit log set_realTime with_state].
    rewrite drop_app_length.
    by rewrite (isLiveTool_called_seconds now o _ Hnow Hst Hts).
  - intros Hl. unfold jumpToRealTime, calls_since.
    change (lastNoMessageTool (state (set_realTime true p)))
      with (lastNoMessageTool (state p)).
    change (store (set_realTime true p)) with (store p).
    change (toolPanel (set_realTime true p)) with (toolPanel p).
    rewrite Hl, Ha, Htp. cbn [emit log set_realTime with_state].
    rewrite drop_app_length.
    by rewrite (isLiveTool_called_seconds now o _ Hnow Hst Hts).
Qed.

Lemma completed_tool_is_never_live_witness :
  calls_since (length (log t1_done_page)) (jumpToRealTime a_moment t1_done_page)
  = [ShowToolPanel 0 false].
Proof.
  apply (proj2 (completed_tool_is_never_live a_moment 0 t1_called_ok t1_done_page (js "s")
                  eq_refl eq_refl eq_refl eq_refl ltac:(vm_compute; discriminate)
                  ltac:(vm_compute; discriminate))).
  reflexivity.
Defined.

(** ** Sending *)

(** X12. With a session id set, [chat] appends a user entry exactly when
    the message has a code unit that is not white space, and the entry and
    the request both carry the message as typed, untrimmed; an attachments
    entry follows exactly when files are given. A blank message without
    files leaves the transcript alone, and the request is issued all the
    same. *)
Theorem chat_appends_unless_blank now now_api message files p sid :
  current_session p = Some sid ->
  let sent := chat_send now now_api message files p in
  messages (state sent) =
    messages (state p)
    ++ (if forallb isWhiteSpace message then []
        else [MessageEntry user (TextContent message (agentApi.unix_seconds now))])
    ++ match files with [] => [] | _ :: _ => [AttachmentsEntry (UserFiles files)] end /\
  exists request,
    last (log sent) = Some (CreateSSEConnection request) /\
    agentApi.message (agentApi.body request) = message /\
    agentApi.attachments (agentApi.body request) = map file_id files.
Proof.
  intros Hs sent. unfold sent, chat_send. rewrite Hs. split.
  - unfold chat_open, chat_prepare.
    assert (Ht : truthy (trim message) = negb (forallb isWhiteSpace message)).
    { destruct (truthy (trim message)) eqn:E, (forallb isWhiteSpace message) eqn:F;
        try reflexivity.
      - apply trim_falsy_iff_blank in F. congruence.
      - apply trim_falsy_iff_blank in E. congruence. }
    rewrite Ht.
    destruct (cancelCurrentChat (state p)), (forallb isWhiteSpace message), files;
      simpl; rewrite <- ?app_assoc, ?app_nil_r; reflexivity.
  - eexists. split; [apply last_snoc|]. split; reflexivity.
Qed.

Lemma chat_appends_unless_blank_witness :
  messages (state (chat_send a_moment a_moment (js "  ") two_files thinking_page))
  = [AttachmentsEntry (UserFiles two_files)].
Proof.
  exact (proj1 (chat_appends_unless_blank a_moment a_moment (js "  ") two_files
                  thinking_page (js "s") eq_refl)).
Defined.

Lemma chat_fields now now_api r message files p :
  let q := chat now now_api r message files p in
  sessionId (state q) = sessionId (state p) /\
  attachments (state q) = attachments (state p) /\
  lastEventId (state q) = lastEventId (state p) /\
  (is_Some (current_session p) -> inputMessage (state q) = []).
Proof.
  unfold chat, chat_send.
  destruct (current_session p) as [sid|];
    [|repeat split; intros [? H]; discriminate H].
  unfold chat_prepare, chat_open, chat_settle.
  destruct (cancelCurrentChat (state p)), (truthy (trim message)), files, r;
    repeat split.
Qed.

(** X13. Submitting sends the typed message with the ids of the attached
    files and empties the input field, but it leaves the list of attached
    files as it is: submitting again straight away sends an empty message
    with the same file ids and appends the attachments entry once more,
    without a user entry. *)
Theorem submit_keeps_attachments now now_api r now2 now_api2 r2 p sid :
  current_session p = Some sid ->
  let q := handleSubmit now now_api r p in
  let q2 := handleSubmit now2 now_api2 r2 q in
  inputMessage (state q) = [] /\
  attachments (state q) = attachments (state p) /\
  (exists request,
     In (CreateSSEConnection request) (calls_since (length (log p)) q) /\
     agentApi.message (agentApi.body request) = inputMessage (state p) /\
     agentApi.attachments (agentApi.body request) = map file_id (attachments (state p))) /\
  messages (state q2) =
    messages (state q)
    ++ match attachments (state p) with
       | [] => []
       | _ :: _ => [AttachmentsEntry (UserFiles (attachments (state p)))]
       end /\
  (exists request,
     In (CreateSSEConnection request) (calls_since (length (log q)) q2) /\
     agentApi.message (agentApi.body request) = [] /\
     agentApi.attachments (agentApi.body request) = map file_id (attachments (state p))).
Proof.
  intros Hs q q2.
  assert (Hq : current_session q = Some sid /\ inputMessage (state q) = [] /\
               attachments (state q) = attachments (state p)).
  { pose proof (chat_fields now now_api r (inputMessage (state p))
                  (attachments (state p)) p) as H. cbv zeta in H.
    destruct H as (H1 & H2 & _ & H4). fold (handleSubmit now now_api r p) in H1, H2, H4.
    fold q in H1, H2, H4. split; [|split; [apply H4; rewrite Hs; eauto|exact H2]].
    unfold current_session in *. by rewrite H1. }
  destruct Hq as (Hsq & Hin & Hatt).
  assert (Hreq : forall now now_api r p sid,
    current_session p = Some sid ->
    exists request,
      In (CreateSSEConnection request)
         (calls_since (length (log p)) (handleSubmit now now_api r p)) /\
      agentApi.message (agentApi.body request) = inputMessage (state p) /\
      agentApi.attachments (agentApi.body request) = map file_id (attachments (state p))).
  { clear. intros now now_api r p sid Hs.
    exists (agentApi.chatWithSession now_api sid (inputMessage (state p))
              (lastEventId (state p)) (map file_id (attachments (state p)))).
    split; [|split; reflexivity].
    unfold handleSubmit, chat, chat_send, calls_since. rewrite Hs.
    unfold chat_prepare, chat_open, chat_settle.
    destruct (cancelCurrentChat (state p)), (truthy (trim (inputMessage (state p)))),
      (attachments (state p)), r; simpl;
      rewrite <- ?app_assoc, ?drop_app_length; simpl; auto. }
  split; [exact Hin|]. split; [exact Hatt|]. split; [by eapply Hreq|]. split.
  - unfold q2, handleSubmit. rewrite Hin, Hatt.
    unfold chat, chat_send. rewrite Hsq.
    unfold chat_prepare, chat_open, chat_settle.
    change (truthy (trim [])) with false.
    destruct (cancelCurrentChat (state q)), (attachments (state p)), r2;
      simpl; rewrite ?app_nil_r; reflexivity.
  - destruct (Hreq now2 now_api2 r2 q sid Hsq) as (request & H1 & H2 & H3).
    exists request. split; [exact H1|]. rewrite H2, H3, Hin, Hatt. auto.
Qed.

Lemma submit_keeps_attachments_witness :
  attachments (state (handleSubmit a_moment a_moment (Resolved 3%nat) drafting_page))
  = two_files.
Proof.
  exact (proj1 (proj2 (submit_keeps_attachments a_moment a_moment (Resolved 3%nat)
                         a_moment a_moment (Resolved 4%nat) drafting_page (js "s")
                         eq_refl))).
Defined.

(** ** What each action leaves alone *)

Lemma restoreSession_fields t now now_api fetched r p :
  sessionId (state (restoreSession t now now_api fetched r p)) = sessionId (state p).
Proof.
  unfold restoreSession.
  destruct (current_session p) as [sid|]; [|reflexivity].
  destruct fetched as [session|err]; [|reflexivity].
  destruct (replay_controller_fields (session_events session) (emit (GetSession sid) p))
    as (Hs & _).
  destruct (is_active (session_status session)); cbn [emit state].
  - pose proof (chat_fields now now_api r [] []
                  (replay (session_events session) (emit (GetSession sid) p))) as H.
    cbv zeta in H. destruct H as (-> & _). exact Hs.
  - exact Hs.
Qed.

(** X14. The stored cancel function is changed by nothing but a chat
    call, the close and error callbacks, unmounting and a route change: no
    event, and neither stopping the session nor any inspector or scroll
    action touches it. The session id is changed by nothing but mounting
    and a route change. The resume cursor is moved by nothing but an event
    and a route change: it survives close, error, stop and a new chat
    call. *)
Theorem controller_frame t a p :
  (may_change_channel a = false ->
   cancelCurrentChat (state (perform t a p)) = cancelCurrentChat (state p)) /\
  (may_change_session a = false ->
   sessionId (state (perform t a p)) = sessionId (state p)) /\
  (may_move_cursor a = false ->
   lastEventId (state (perform t a p)) = lastEventId (state p)).
Proof.
  split; [|split]; intros Ha; destruct a; try discriminate Ha; simpl.
  - destruct cb; try discriminate Ha; simpl; [reflexivity|].
    apply (handleEvent_controller_fields event p).
  - unfold handleToolClick. repeat case_match; reflexivity.
  - unfold jumpToRealTime. repeat case_match; reflexivity.
  - reflexivity.
  - reflexivity.
  - unfold handleStop. case_match; reflexivity.
  - destruct cb; simpl.
    + reflexivity.
    + apply (handleEvent_controller_fields event p).
    + unfold onClose, clear_cancelCurrentChat. case_match; reflexivity.
    + unfold onError, clear_cancelCurrentChat. case_match; reflexivity.
  - apply (chat_fields now now_api r).
  - apply restoreSession_fields.
  - unfold onUnmounted. case_match; reflexivity.
  - unfold handleToolClick. repeat case_match; reflexivity.
  - unfold jumpToRealTime. repeat case_match; reflexivity.
  - reflexivity.
  - reflexivity.
  - unfold handleStop. case_match; reflexivity.
  - destruct cb; try discriminate Ha; simpl.
    + reflexivity.
    + unfold onClose, clear_cancelCurrentChat. case_match; reflexivity.
    + unfold onError, clear_cancelCurrentChat. case_match; reflexivity.
  - apply (chat_fields now now_api r).
  - unfold onUnmounted. case_match; reflexivity.
  - unfold handleToolClick. repeat case_match; reflexivity.
  - unfold jumpToRealTime. repeat case_match; reflexivity.
  - reflexivity.
  - reflexivity.
  - unfold handleStop. case_match; reflexivity.
Qed.

Lemma controller_frame_witness :
  cancelCurrentChat (state (perform (fun k => k) Stop streaming_page)) = Some 1%nat /\
  lastEventId (state (perform (fun k => k) (Deliver CbClose) streaming_page))
  = Some (js "1-0").
Proof.
  split.
  - exact (proj1 (controller_frame (fun k => k) Stop streaming_page) eq_refl).
  - exact (proj2 (proj2 (controller_frame (fun k => k) (Deliver CbClose) streaming_page))
             eq_refl).
Defined.

Lemma onClose_fields p :
  current_session (onClose p) = current_session p /\
  lastEventId (state (onClose p)) = lastEventId (state p).
Proof.
  unfold onClose, clear_cancelCurrentChat, current_session.
  destruct (cancelCurrentChat _); split; reflexivity.
Qed.

Lemma onError_fields error p :
  current_session (onError error p) = current_session p /\
  lastEventId (state (onError error p)) = lastEventId (state p).
Proof.
  unfold onError, clear_cancelCurrentChat, current_session.
  destruct (cancelCurrentChat _); split; reflexivity.
Qed.

(** X18. The request of a chat call carries the id of the last event
    folded as its resume cursor, also when the channel was closed or failed
    in between, and a timestamp that is the clock reading cut down to whole
    seconds. *)
Theorem chat_resumes_after_last_event es e now now_api message files p sid :
  current_session p = Some sid ->
  let q := handleEvents (es ++ [e]) p in
  let request :=
    agentApi.chatWithSession now_api sid message (Some (Event.event_id e))
      (map file_id files) in
  last (log (chat_send now now_api message files q)) = Some (CreateSSEConnection request) /\
  last (log (chat_send now now_api message files (onClose q)))
  = Some (CreateSSEConnection request) /\
  (forall error,
     last (log (chat_send now now_api message files (onError error q)))
     = Some (CreateSSEConnection request)) /\
  1000 * agentApi.timestamp (agentApi.body request) <= now_api
  < 1000 * agentApi.timestamp (agentApi.body request) + 1000.
Proof.
  intros Hs q request.
  assert (Hq : current_session q = Some sid).
  { pose proof (handleEvents_controller_fields (es ++ [e]) p) as H. cbv zeta in H.
    destruct H as (H & _). unfold current_session in *. fold q in H. by rewrite H. }
  assert (Hcur : lastEventId (state q) = Some (Event.event_id e)).
  { unfold q. rewrite handleEvents_app. apply handleEvent_cursor. }
  assert (Hsend : forall q', current_session q' = Some sid ->
            lastEventId (state q') = Some (Event.event_id e) ->
            last (log (chat_send now now_api message files q'))
            = Some (CreateSSEConnection request)).
  { intros q' Hs' Hc'. unfold chat_send. rewrite Hs'. unfold chat_open.
    cbn [emit log]. rewrite last_snoc. unfold request. do 3 f_equal.
    rewrite <- Hc'. unfold chat_prepare.
    destruct (cancelCurrentChat (state q')), (truthy (trim message)), files; reflexivity. }
  split; [by apply Hsend|]. split; [|split].
  - destruct (onClose_fields q) as [H1 H2]. apply Hsend; congruence.
  - intros error. destruct (onError_fields error q) as [H1 H2].
    apply Hsend; congruence.
  - unfold request. cbn. unfold agentApi.unix_seconds.
    pose proof (Z.div_mod now_api 1000 ltac:(lia)).
    pose proof (Z.mod_pos_bound now_api 1000 ltac:(lia)). lia.
Qed.

Lemma chat_resumes_after_last_event_witness :
  last (log (chat_send a_moment a_moment (js "more") []
               (onClose (handleEvents ([] ++ [Event.done (js "7-0")]) thinking_page))))
  = Some (CreateSSEConnection
            (agentApi.chatWithSession a_moment (js "s") (js "more") (Some (js "7-0")) [])).
Proof.
  exact (proj1 (proj2 (chat_resumes_after_last_event [] (Event.done (js "7-0"))
                         a_moment a_moment (js "more") [] thinking_page (js "s")
                         eq_refl))).
Defined.

(** ** [getLastStep] *)

(** X16. [getLastStep] finds the step entry nearest the end of the
    transcript, whatever follows it, and nothing exactly when the
    transcript has no step entry. *)
Theorem getLastStep_is_the_last_step p :
  (getLastStep p = None <->
   forall i c, messages (state p) !! i <> Some (StepEntry c)) /\
  (forall i c,
     getLastStep p = Some (i, c) <->
     messages (state p) !! i = Some (StepEntry c) /\
     forall j c', (i < j)%nat -> messages (state p) !! j <> Some (StepEntry c')).
Proof.
  assert (Hsome : forall i c, getLastStep p = Some (i, c) ->
            messages (state p) !! i = Some (StepEntry c) /\
            forall j c', (i < j)%nat -> messages (state p) !! j <> Some (StepEntry c'))
    by apply getLastStep_lookup.
  split.
  - split; [apply last_step_from_None|].
    intros Hnone. destruct (getLastStep p) as [[i c]|] eqn:Hl; [|reflexivity].
    destruct (Hsome i c eq_refl) as [Hi _]. by destruct (Hnone i c).
  - intros i c. split; [apply Hsome|]. intros [Hi Hlater].
    destruct (getLastStep p) as [[i' c']|] eqn:Hl.
    + destruct (Hsome i' c' eq_refl) as [Hi' Hlater'].
      destruct (Nat.lt_trichotomy i i') as [Hlt|[->|Hgt]].
      * by destruct (Hlater i' c' Hlt).
      * congruence.
      * by destruct (Hlater' i c Hgt).
    + exfalso. eapply last_step_from_None; [exact Hl|exact Hi].
Qed.

(** ** Navigation *)





(** ** Restoring without a session, or without an answer *)

Lemma restoreSession_calls t now now_api fetched r p :
  calls_since (length (log p)) (restoreSession t now now_api fetched r p) =
    match current_session p with
    | None => [ShowErrorToast (t (js "Session not found"))]
    | Some sid =>
        GetSession sid
        :: match fetched with
           | Rejected _ => []
           | Resolved session =>
               (if is_active (session_status session)
                then cancel_calls p
                     ++ [CreateSSEConnection
                           (resume_request now_api sid
                              (lastEventId
                                 (state (replay (session_events session)
                                           (emit (GetSession sid) p)))))]
                     ++ settle_calls r
                else [])
               ++ [ClearUnreadMessageCount sid]
           end
    end.
Proof.
  unfold calls_since.
  destruct (current_session p) as [sid|] eqn:Hs.
  - destruct fetched as [session|err].
    + rewrite (restoreSession_unfold _ _ _ _ _ _ _ Hs). cbv zeta.
      set (replayed := replay (session_events session) (emit (GetSession sid) p)).
      assert (Hlog : log replayed = log p ++ [GetSession sid]).
      { unfold replayed, replay.
        change (log (handleEvents (session_events session)
                       (set_realTime false (emit (GetSession sid) p)))
                = log p ++ [GetSession sid]).
        rewrite handleEvents_silent; reflexivity. }
      destruct (is_active (session_status session)).
      * assert (Hcs : current_session replayed = Some sid)
          by (unfold replayed; rewrite current_session_replay; exact Hs).
        assert (Hcc : cancel_calls replayed = cancel_calls p).
        { unfold cancel_calls, replayed.
          destruct (replay_controller_fields (session_events session)
                      (emit (GetSession sid) p)) as (_ & -> & _). reflexivity. }
        destruct (chat_resume now now_api r replayed sid Hcs) as (_&_&_&_&_&_&Hl).
        cbn [emit log]. rewrite Hl, Hlog, Hcc, <- !app_assoc, drop_app_length.
        reflexivity.
      * cbn [emit log]. rewrite Hlog, <- !app_assoc, drop_app_length. reflexivity.
    + unfold restoreSession. rewrite Hs. cbn [emit log]. by rewrite drop_app_length.
  - unfold restoreSession. rewrite Hs. cbn [emit log]. by rewrite drop_app_length.
Qed.

(** X10. [restoreSession] shows an error toast exactly when no session id
    is set, and then does nothing else. When the fetch of the session is
    rejected it has made the fetch and nothing more: no toast, no change of
    state, real-time mode as it was, the unread count not cleared. *)
Theorem restore_toast_only_without_session t now now_api fetched r p :
  existsb is_ShowErrorToast
    (calls_since (length (log p)) (restoreSession t now now_api fetched r p))
  = match current_session p with None => true | Some _ => false end /\
  (current_session p = None ->
   restoreSession t now now_api fetched r p
   = emit (ShowErrorToast (t (js "Session not found"))) p) /\
  (forall sid error,
     current_session p = Some sid ->
     let p' := restoreSession t now now_api (Rejected error) r p in
     state p' = state p /\ store p' = store p /\
     calls_since (length (log p)) p' = [GetSession sid]).
Proof.
  split; [|split].
  - rewrite restoreSession_calls.
    destruct (current_session p) as [sid|]; [|reflexivity].
    destruct fetched as [session|err]; [|reflexivity].
    unfold cancel_calls, settle_calls.
    destruct (is_active _), (cancelCurrentChat (state p)), r; reflexivity.
  - intros Hs. unfold restoreSession. by rewrite Hs.
  - intros sid error Hs p'. unfold p'. rewrite restoreSession_calls, Hs.
    unfold restoreSession. rewrite Hs. repeat split.
Qed.

Lemma restore_toast_only_without_session_witness :
  restoreSession (fun k => k) a_moment a_moment (Rejected JNull) (Rejected JNull)
    (mount (fun k => k))
  = emit (ShowErrorToast (js "Session not found")) (mount (fun k => k)).
Proof.
  exact (proj1 (proj2 (restore_toast_only_without_session (fun k => k) a_moment
                         a_moment (Rejected JNull) (Rejected JNull)
                         (mount (fun k => k)))) eq_refl).
Defined.
